(** * Image Alchemist: the encoder, the edit client and the session state

    A shallow embedding of [utils/fileUtils.ts], [services/geminiService.ts]
    and the [App] component, with the properties of the specification
    stated over it.

    JavaScript strings are modelled as [string]; a character stands for one
    code unit below 256.  A promise that has settled is a value of
    [Promise]: either it resolved with a value or it rejected with the
    thrown value. *)

From Stdlib Require Import Bool List Arith Lia.
From Stdlib Require Import Strings.Ascii Strings.String Strings.Byte.
Import ListNotations.

Local Open Scope string_scope.

(* ================================================================== *)
(** ** JavaScript values the code relies on *)

Module JS.

(** A value that was thrown: an [Error] object with its [message], or
    anything else (a string, a plain object, ...). *)
Inductive Thrown : Type :=
| ErrorObj (message : string)
| NonError (printed : string).

(** A settled promise. *)
Inductive Promise (A : Type) : Type :=
| Resolved (value : A)
| Rejected (reason : Thrown).

Arguments Resolved {A} value.
Arguments Rejected {A} reason.

(** [await] inside a [try] block: the continuation runs on the resolved
    value, a rejection is passed on to the handler. *)
Definition bind {A B : Type} (p : Promise A) (k : A -> Promise B) : Promise B :=
  match p with
  | Resolved a => k a
  | Rejected e => Rejected e
  end.

(** Truthiness of a string: only the empty string is falsy. *)
Definition truthy (s : string) : bool :=
  match s with
  | EmptyString => false
  | String _ _ => true
  end.

(** [x || d] on a possibly undefined string: [undefined] and [""] both
    give the default. *)
Definition orDefault (x : option string) (d : string) : string :=
  match x with
  | Some s => if truthy s then s else d
  | None => d
  end.

(** [s.split(sep)] for a one-character separator.  The result is never
    empty: a string without the separator gives itself as only segment. *)
Fixpoint split (sep : ascii) (s : string) : list string :=
  match s with
  | EmptyString => [EmptyString]
  | String c s' =>
      if Ascii.eqb c sep then EmptyString :: split sep s'
      else match split sep s' with
           | seg :: segs => String c seg :: segs
           | [] => [String c EmptyString]
           end
  end.

(** [arr[i]]: [undefined] out of range. *)
Definition at_index (l : list string) (i : nat) : option string :=
  nth_error l i.

(** [s.includes(needle)]. *)
Fixpoint includes (needle s : string) : bool :=
  String.prefix needle s ||
  match s with
  | EmptyString => false
  | String _ s' => includes needle s'
  end.

(** White space removed by [trim], among the code units below 256:
    TAB, LF, VT, FF, CR, SPACE and NBSP. *)
Definition isWhiteSpace (c : ascii) : bool :=
  match nat_of_ascii c with
  | 9 | 10 | 11 | 12 | 13 | 32 | 160 => true
  | _ => false
  end.

Fixpoint trimStart (s : string) : string :=
  match s with
  | EmptyString => EmptyString
  | String c s' => if isWhiteSpace c then trimStart s' else s
  end.

Fixpoint trimEnd (s : string) : string :=
  match s with
  | EmptyString => EmptyString
  | String c s' =>
      match trimEnd s' with
      | EmptyString => if isWhiteSpace c then EmptyString else String c EmptyString
      | t => String c t
      end
  end.

(** [s.trim()]. *)
Definition trim (s : string) : string := trimEnd (trimStart s).

End JS.

Import JS.

Notation "x <- p ;; k" := (JS.bind p (fun x => k))
  (at level 61, p at next level, right associativity).

(** The character [c] does not occur in [s]. *)
Fixpoint lacks (c : ascii) (s : string) : bool :=
  match s with
  | EmptyString => true
  | String d s' => negb (Ascii.eqb d c) && lacks c s'
  end.

(** The text of [s] after its first occurrence of [c], if [c] occurs. *)
Fixpoint afterFirst (c : ascii) (s : string) : option string :=
  match s with
  | EmptyString => None
  | String d s' => if Ascii.eqb d c then Some s' else afterFirst c s'
  end.

(* ================================================================== *)
(** ** utils/fileUtils.ts *)

(** A [File]: its name, its declared media type and its bytes. *)
Record File : Type := mkFile {
  name : string;
  type : string;
  content : list byte
}.

(** How a [FileReader] read ends: [onload] with the result string, or
    [onerror] with an event, of which the code only uses the printed
    form. *)
Inductive ReadOutcome : Type :=
| Loaded (result : string)
| Failed (printedEvent : string).

Definition emptyResultMessage : string :=
  "Failed to convert file to base64: result was empty.".

Definition readErrorMessage (printedEvent : string) : string :=
  "File could not be read: " ++ printedEvent.

(** The [onload] callback. *)
Definition onload (result : string) : Promise string :=
  match at_index (split "," result) 1 with
  | Some base64String =>
      if truthy base64String then Resolved base64String
      else Rejected (ErrorObj emptyResultMessage)
  | None => Rejected (ErrorObj emptyResultMessage)
  end.

(** The [onerror] callback. *)
Definition onerror (printedEvent : string) : Promise string :=
  Rejected (ErrorObj (readErrorMessage printedEvent)).

(** [fileToBase64], as a function of how the read of the file ends. *)
Definition fileToBase64 (read : ReadOutcome) : Promise string :=
  match read with
  | Loaded result => onload result
  | Failed ev => onerror ev
  end.

(* ================================================================== *)
(** ** The platform's [readAsDataURL] and base64 (RFC 4648)

    [FileReader.readAsDataURL] is a browser primitive: its result is
    ["data:" ++ type ++ ";base64," ++ base64 bytes].  The encoding is
    written here on bits, most significant first, so that regrouping three
    octets into four sextets is plain data movement. *)

Module Base64.

Definition Sextet : Type := (bool * bool * bool * bool * bool * bool)%type.

Definition alphabet : string :=
  "ABCDEFGHIJKLMNOPQRSTUVWXYZabcdefghijklmnopqrstuvwxyz0123456789+/".

Definition pad : ascii := "="%char.

Definition b2n (b : bool) : nat := if b then 1 else 0.

Definition index_of_sextet (s : Sextet) : nat :=
  let '(b5, b4, b3, b2, b1, b0) := s in
  32 * b2n b5 + 16 * b2n b4 + 8 * b2n b3 + 4 * b2n b2 + 2 * b2n b1 + b2n b0.

Definition sextet_of_index (n : nat) : Sextet :=
  (Nat.testbit n 5, Nat.testbit n 4, Nat.testbit n 3,
   Nat.testbit n 2, Nat.testbit n 1, Nat.testbit n 0).

Fixpoint indexOf (c : ascii) (s : string) : option nat :=
  match s with
  | EmptyString => None
  | String d s' =>
      if Ascii.eqb d c then Some 0 else option_map S (indexOf c s')
  end.

Definition char_of_sextet (s : Sextet) : ascii :=
  match String.get (index_of_sextet s) alphabet with
  | Some c => c
  | None => pad
  end.

Definition sextet_of_char (c : ascii) : option Sextet :=
  option_map sextet_of_index (indexOf c alphabet).

(** The bits of an octet, most significant first. *)
Definition bits (b : byte) : bool * bool * bool * bool * bool * bool * bool * bool :=
  let '(b0, (b1, (b2, (b3, (b4, (b5, (b6, b7))))))) := Byte.to_bits b in
  (b7, b6, b5, b4, b3, b2, b1, b0).

Definition octet (b7 b6 b5 b4 b3 b2 b1 b0 : bool) : byte :=
  Byte.of_bits (b0, (b1, (b2, (b3, (b4, (b5, (b6, b7))))))).

Definition chars (l : list Sextet) (rest : string) : string :=
  fold_right (fun s acc => String (char_of_sextet s) acc) rest l.

Fixpoint encode (bs : list byte) : string :=
  match bs with
  | [] => EmptyString
  | [x] =>
      let '(x7, x6, x5, x4, x3, x2, x1, x0) := bits x in
      chars [(x7, x6, x5, x4, x3, x2); (x1, x0, false, false, false, false)]
            (String pad (String pad EmptyString))
  | [x; y] =>
      let '(x7, x6, x5, x4, x3, x2, x1, x0) := bits x in
      let '(y7, y6, y5, y4, y3, y2, y1, y0) := bits y in
      chars [(x7, x6, x5, x4, x3, x2); (x1, x0, y7, y6, y5, y4);
             (y3, y2, y1, y0, false, false)]
            (String pad EmptyString)
  | x :: y :: z :: rest =>
      let '(x7, x6, x5, x4, x3, x2, x1, x0) := bits x in
      let '(y7, y6, y5, y4, y3, y2, y1, y0) := bits y in
      let '(z7, z6, z5, z4, z3, z2, z1, z0) := bits z in
      chars [(x7, x6, x5, x4, x3, x2); (x1, x0, y7, y6, y5, y4);
             (y3, y2, y1, y0, z7, z6); (z5, z4, z3, z2, z1, z0)]
            (encode rest)
  end.

(** Octets of a last, padded group: [c1 c2 = =] or [c1 c2 c3 =]. *)
Definition decode_tail (c1 c2 c3 : ascii) : option (list byte) :=
  match sextet_of_char c1, sextet_of_char c2 with
  | Some (x7, x6, x5, x4, x3, x2), Some (x1, x0, y7, y6, y5, y4) =>
      if Ascii.eqb c3 pad then Some [octet x7 x6 x5 x4 x3 x2 x1 x0]
      else match sextet_of_char c3 with
           | Some (y3, y2, y1, y0, _, _) =>
               Some [octet x7 x6 x5 x4 x3 x2 x1 x0; octet y7 y6 y5 y4 y3 y2 y1 y0]
           | None => None
           end
  | _, _ => None
  end.

Definition decode_group (c1 c2 c3 c4 : ascii) : option (list byte) :=
  match sextet_of_char c1, sextet_of_char c2,
        sextet_of_char c3, sextet_of_char c4 with
  | Some (x7, x6, x5, x4, x3, x2), Some (x1, x0, y7, y6, y5, y4),
    Some (y3, y2, y1, y0, z7, z6), Some (z5, z4, z3, z2, z1, z0) =>
      Some [octet x7 x6 x5 x4 x3 x2 x1 x0; octet y7 y6 y5 y4 y3 y2 y1 y0;
            octet z7 z6 z5 z4 z3 z2 z1 z0]
  | _, _, _, _ => None
  end.

Fixpoint decode (s : string) : option (list byte) :=
  match s with
  | EmptyString => Some []
  | String c1 (String c2 (String c3 (String c4 rest))) =>
      match rest with
      | EmptyString =>
          if Ascii.eqb c4 pad then decode_tail c1 c2 c3
          else decode_group c1 c2 c3 c4
      | _ =>
          match decode_group c1 c2 c3 c4, decode rest with
          | Some g, Some bs => Some (g ++ bs)%list
          | _, _ => None
          end
      end
  | _ => None
  end.

End Base64.

(** Result of [readAsDataURL] on a file that can be read. *)
Definition readAsDataURL (file : File) : string :=
  "data:" ++ type file ++ ";base64," ++ Base64.encode (content file).

(** [s] without the prefix [p], if it starts with it. *)
Fixpoint stripPrefix (p s : string) : option string :=
  match p, s with
  | EmptyString, _ => Some s
  | String a p', String b s' => if Ascii.eqb a b then stripPrefix p' s' else None
  | String _ _, EmptyString => None
  end.

(** The text of [s] before its first occurrence of [c] (all of it if [c]
    does not occur). *)
Fixpoint beforeFirst (c : ascii) (s : string) : string :=
  match s with
  | EmptyString => EmptyString
  | String d s' => if Ascii.eqb d c then EmptyString else String d (beforeFirst c s')
  end.

Fixpoint endsWith (suffix s : string) : bool :=
  String.eqb s suffix ||
  match s with
  | EmptyString => false
  | String _ s' => endsWith suffix s'
  end.

(** Decoding of a base64 data URI, after the specification's glossary:
    ["data:<mediaType>;base64,<payload>"] stands for the octets that
    [<payload>] encodes.  The payload starts after the first comma. *)
Definition decodeDataURI (uri : string) : option (list byte) :=
  match stripPrefix "data:" uri with
  | Some body =>
      if endsWith ";base64" (beforeFirst "," body) then
        match afterFirst "," body with
        | Some payload => Base64.decode payload
        | None => None
        end
      else None
  | None => None
  end.

(* ================================================================== *)
(** ** services/geminiService.ts *)

Record InlineData : Type := mkInlineData {
  data : string;
  mimeType : string
}.

(** A content part: optional inline data, optional text. *)
Record Part : Type := mkPart {
  inlineData : option InlineData;
  text : option string
}.

Record Content : Type := mkContent { parts : option (list Part) }.

Record Candidate : Type := mkCandidate { candidateContent : option Content }.

Record Response : Type := mkResponse { candidates : option (list Candidate) }.

Inductive Modality : Type := MODALITY_UNSPECIFIED | TEXT | IMAGE | AUDIO.

Record Request : Type := mkRequest {
  model : string;
  contents : list Part;
  responseModalities : list Modality
}.

(** The places where reading the response can hit [undefined]; the engine
    throws a [TypeError] there. *)
Inductive Fault : Type :=
| CandidatesUndefined      (* response.candidates[0] *)
| FirstCandidateUndefined  (* response.candidates[0].content *)
| ContentUndefined         (* response.candidates[0].content.parts *)
| PartsNotIterable.        (* for (const part of undefined) *)

Definition dquote : ascii := "034"%char.

Definition enhancedPrompt (prompt : string) : string :=
  "A masterpiece, high-resolution, studio quality, intricate details, ethereal mood, dramatic lighting. Focus on textures like stained glass, iridescent crystal, and glowing filaments. Using the provided image as a base, edit it to: "
  ++ String dquote (prompt ++ String dquote EmptyString).

Definition editRequest (base64ImageData mimeType prompt : string) : Request :=
  {| model := "gemini-2.5-flash-image";
     contents :=
       [ {| inlineData := Some {| data := base64ImageData; mimeType := mimeType |};
            text := None |};
         {| inlineData := None; text := Some (enhancedPrompt prompt) |} ];
     responseModalities := [IMAGE] |}.

Definition noImageMessage : string :=
  "No image data was found in the API response.".

Definition invalidKeyMessage : string :=
  "The provided API key is not valid. Please check your configuration.".

Definition failedPrefix : string := "Failed to edit image: ".

Definition unknownErrorMessage : string :=
  "An unknown error occurred while communicating with the AI model.".

(** [response.candidates[0].content.parts], or the access that faults. *)
Definition responseParts (response : Response) : list Part + Fault :=
  match candidates response with
  | None => inr CandidatesUndefined
  | Some [] => inr FirstCandidateUndefined
  | Some (first :: _) =>
      match candidateContent first with
      | None => inr ContentUndefined
      | Some c =>
          match parts c with
          | None => inr PartsNotIterable
          | Some ps => inl ps
          end
      end
  end.

(** The [for ... of] loop: the URI of the first part with inline data. *)
Fixpoint scanParts (ps : list Part) : option string :=
  match ps with
  | [] => None
  | part :: rest =>
      match inlineData part with
      | Some d => Some ("data:" ++ mimeType d ++ ";base64," ++ data d)
      | None => scanParts rest
      end
  end.

(** The [catch] block: what is thrown in place of [error]. *)
Definition catchBlock (error : Thrown) : Thrown :=
  match error with
  | ErrorObj message =>
      if includes "API key not valid" message then ErrorObj invalidKeyMessage
      else ErrorObj (failedPrefix ++ message)
  | NonError _ => ErrorObj unknownErrorMessage
  end.

Section EditClient.

(** The engine's text for the [TypeError] of each fault. *)
Variable typeErrorMessage : Fault -> string.

(** [ai.models.generateContent]: the remote call, settled. *)
Variable generateContent : Request -> Promise Response.

(** The statements of the [try] block after the remote call has
    resolved. *)
Definition readResponse (response : Response) : Promise string :=
  match responseParts response with
  | inr fault => Rejected (ErrorObj (typeErrorMessage fault))
  | inl ps =>
      match scanParts ps with
      | Some uri => Resolved uri
      | None => Rejected (ErrorObj noImageMessage)
      end
  end.

(** The function from the construction of the prompt on (lines 13-56),
    that is, with a client that line 11 has built.  The whole call,
    with line 11, is [editImageWithPromptCall] below. *)
Definition editImageWithPrompt (base64ImageData mimeType prompt : string)
  : Promise string :=
  match (response <- generateContent (editRequest base64ImageData mimeType prompt) ;;
         readResponse response) with
  | Resolved uri => Resolved uri
  | Rejected error => Rejected (catchBlock error)
  end.

End EditClient.

(* ================================================================== *)
(** ** The [App] component *)

(** The six [useState] cells. *)
Record SessionState : Type := mkSession {
  originalImageFile : option File;
  originalImagePreview : option string;
  editedImage : option string;
  prompt : string;
  isLoading : bool;
  error : option string
}.

Definition initialState : SessionState :=
  {| originalImageFile := None; originalImagePreview := None;
     editedImage := None; prompt := ""; isLoading := false; error := None |}.

(** A call of one of the state setters. *)
Inductive Update : Type :=
| SetOriginalImageFile (v : option File)
| SetOriginalImagePreview (v : option string)
| SetEditedImage (v : option string)
| SetPrompt (v : string)
| SetIsLoading (v : bool)
| SetError (v : option string).

Definition applyUpdate (s : SessionState) (u : Update) : SessionState :=
  match u with
  | SetOriginalImageFile v =>
      mkSession v (originalImagePreview s) (editedImage s) (prompt s) (isLoading s) (error s)
  | SetOriginalImagePreview v =>
      mkSession (originalImageFile s) v (editedImage s) (prompt s) (isLoading s) (error s)
  | SetEditedImage v =>
      mkSession (originalImageFile s) (originalImagePreview s) v (prompt s) (isLoading s) (error s)
  | SetPrompt v =>
      mkSession (originalImageFile s) (originalImagePreview s) (editedImage s) v (isLoading s) (error s)
  | SetIsLoading v =>
      mkSession (originalImageFile s) (originalImagePreview s) (editedImage s) (prompt s) v (error s)
  | SetError v =>
      mkSession (originalImageFile s) (originalImagePreview s) (editedImage s) (prompt s) (isLoading s) v
  end.

(** The setter calls of one synchronous stretch of a handler are applied
    in order and rendered together: the state after the last of them is
    the next state a user can observe. *)
Definition commit (us : list Update) (s : SessionState) : SessionState :=
  fold_left applyUpdate us s.

(** Calls that leave the component. *)
Inductive Effect : Type :=
| RevokeObjectURL (url : string)
| CreateObjectURL (file : File)
| FileToBase64 (file : File)
| EditImageWithPrompt (base64ImageData mimeType prompt : string)
| ClickDownloadLink (href download : string).

(** What a synchronous handler does. *)
Record Handled : Type := mkHandled {
  updates : list Update;
  effects : list Effect
}.

Definition present (x : option string) : bool :=
  match x with
  | Some s => truthy s
  | None => false
  end.

(** [handleImageChange]; [objectURL] is what [URL.createObjectURL]
    returns for the chosen file. *)
Definition handleImageChange (file : option File) (objectURL : string)
  (s : SessionState) : Handled :=
  match file with
  | Some f =>
      {| updates := [SetOriginalImageFile (Some f);
                     SetOriginalImagePreview (Some objectURL);
                     SetEditedImage None;
                     SetError None];
         effects := (match originalImagePreview s with
                     | Some old => if truthy old then [RevokeObjectURL old] else []
                     | None => []
                     end) ++ [CreateObjectURL f] |}
  | None => {| updates := []; effects := [] |}
  end.

(** The extension computed in [handleDownload]. *)
Definition downloadExtension (editedImage : string) : string :=
  let mimeType :=
    orDefault (match at_index (split ";" editedImage) 0 with
               | Some head => at_index (split ":" head) 1
               | None => None
               end) "image/png" in
  orDefault (at_index (split "/" mimeType) 1) "png".

Definition handleDownload (s : SessionState) : Handled :=
  match editedImage s with
  | Some uri =>
      if truthy uri then
        {| updates := [];
           effects := [ClickDownloadLink uri ("alchemized-image." ++ downloadExtension uri)] |}
      else {| updates := []; effects := [] |}
  | None => {| updates := []; effects := [] |}
  end.

(** What a call of the asynchronous [handleSubmit] does: the setter calls
    before the first [await], the calls it makes, and the setter calls
    after the awaited work has settled ([None] when it returned before
    starting any). *)
Record Submission : Type := mkSubmission {
  started : list Update;
  invoked : list Effect;
  settled : option (list Update)
}.

Definition uploadFirstMessage : string := "Please upload an image first.".
Definition enterPromptMessage : string := "Please enter an editing prompt.".
Definition unexpectedErrorMessage : string := "An unexpected error occurred.".

(** The [catch] clause of [handleSubmit]. *)
Definition errorMessage (err : Thrown) : string :=
  match err with
  | ErrorObj message => message
  | NonError _ => unexpectedErrorMessage
  end.

Section Submit.

Variable typeErrorMessage : Fault -> string.
Variable generateContent : Request -> Promise Response.

(** How the [FileReader] read of a file ends. *)
Variable read : File -> ReadOutcome.

(** The two awaited calls of the [try] block. *)
Definition pipeline (file : File) (prompt : string) : Promise string :=
  base64Data <- fileToBase64 (read file) ;;
  editImageWithPrompt typeErrorMessage generateContent base64Data (type file) prompt.

Definition handleSubmit (s : SessionState) : Submission :=
  match originalImageFile s with
  | None =>
      {| started := [SetError (Some uploadFirstMessage)];
         invoked := [];
         settled := None |}
  | Some file =>
      if negb (truthy (trim (prompt s))) then
        {| started := [SetError (Some enterPromptMessage)];
           invoked := [];
           settled := None |}
      else
        {| started := [SetIsLoading true; SetError None; SetEditedImage None];
           invoked :=
             FileToBase64 file ::
             match fileToBase64 (read file) with
             | Resolved base64Data =>
                 [EditImageWithPrompt base64Data (type file) (prompt s)]
             | Rejected _ => []
             end;
           settled :=
             Some (match pipeline file (prompt s) with
                   | Resolved result => [SetEditedImage (Some result)]
                   | Rejected err => [SetError (Some (errorMessage err))]
                   end ++ [SetIsLoading false])%list |}
  end.

End Submit.

(** *** The session as a transition system

    A configuration is the rendered state together with the completions
    of submissions that are still awaited.  The controls are guarded as
    the component renders them: the text area is disabled while loading,
    the submit button while loading or without a file; the file input is
    never disabled. *)

Definition Config : Type := (SessionState * list (list Update))%type.

Definition submitDisabled (s : SessionState) : bool :=
  isLoading s || match originalImageFile s with Some _ => false | None => true end.

Definition promptDisabled (s : SessionState) : bool := isLoading s.

Definition awaiting (r : Submission) : list (list Update) :=
  match settled r with
  | Some us => [us]
  | None => []
  end.

Inductive step : Config -> Config -> Prop :=
| step_select s q file objectURL :
    step (s, q)
         (commit (updates (handleImageChange (Some file) objectURL s)) s, q)
| step_prompt s q v :
    promptDisabled s = false ->
    step (s, q) (commit [SetPrompt v] s, q)
| step_submit s q typeErrorMessage generateContent read :
    submitDisabled s = false ->
    let r := handleSubmit typeErrorMessage generateContent read s in
    step (s, q) (commit (started r) s, (q ++ awaiting r)%list)
| step_settle s q1 us q2 :
    step (s, (q1 ++ us :: q2)%list) (commit us s, (q1 ++ q2)%list)
| step_download s q :
    step (s, q) (commit (updates (handleDownload s)) s, q).

Inductive reachable : Config -> Prop :=
| reachable_init : reachable (initialState, [])
| reachable_step c c' : reachable c -> step c c' -> reachable c'.

(** The text area is blank: nothing but white space. *)
Fixpoint blank (s : string) : bool :=
  match s with
  | EmptyString => true
  | String c s' => isWhiteSpace c && blank s'
  end.

(* ================================================================== *)
(** ** The invariant of the in-flight flag *)

(** What holds of every configuration that can be reached: while the
    flag is set neither a result nor an error is stored, and every awaited
    completion will clear the flag. *)
Definition loadingInvariant (c : Config) : Prop :=
  (isLoading (fst c) = true ->
   editedImage (fst c) = None /\ error (fst c) = None) /\
  Forall (fun us => forall s', isLoading (commit us s') = false) (snd c).

(* ================================================================== *)
(** ** Sample files, services and sessions *)

Definition sampleFile : File :=
  {| name := "abc.png"; type := "image/png"; content := [x41; x42; x43] |}.

Definition platformRead (file : File) : ReadOutcome := Loaded (readAsDataURL file).

(** The [TypeError] texts of one engine. *)
Definition sampleTypeErrorMessage (fault : Fault) : string :=
  match fault with
  | CandidatesUndefined => "Cannot read properties of undefined (reading '0')"
  | FirstCandidateUndefined => "Cannot read properties of undefined (reading 'content')"
  | ContentUndefined => "Cannot read properties of undefined (reading 'parts')"
  | PartsNotIterable => "undefined is not iterable"
  end.

Definition textPart (s : string) : Part :=
  {| inlineData := None; text := Some s |}.

Definition imagePart (mediaType payload : string) : Part :=
  {| inlineData := Some {| data := payload; mimeType := mediaType |}; text := None |}.

Definition responseWith (ps : list Part) : Response :=
  {| candidates := Some [ {| candidateContent := Some {| parts := Some ps |} |} ] |}.

Definition answering (response : Response) : Request -> Promise Response :=
  fun _ => Resolved response.

Definition throwing (thrown : Thrown) : Request -> Promise Response :=
  fun _ => Rejected thrown.

Definition twoImages : list Part :=
  [textPart "Here is your image."; imagePart "image/png" "AAAA"; imagePart "image/jpeg" "BBBB"].

Definition textOnly : list Part := [textPart "I cannot edit this image."].

Definition noCandidates : Response := {| candidates := Some [] |}.

Definition invalidKey : Thrown :=
  ErrorObj "API key not valid. Please pass a valid API key.".

Definition goodService : Request -> Promise Response :=
  answering (responseWith [imagePart "image/png" "AAAA"]).

Definition badService : Request -> Promise Response :=
  throwing (ErrorObj "Failed to fetch").

(** The states of a session: a file is chosen, an instruction typed, a
    first submission started and answered with an image. *)
Definition sampleSelected : SessionState :=
  commit (updates (handleImageChange (Some sampleFile) "blob:1" initialState)) initialState.

Definition samplePrompted : SessionState :=
  commit [SetPrompt "add a glow"] sampleSelected.

Definition firstSubmission : Submission :=
  handleSubmit sampleTypeErrorMessage goodService platformRead samplePrompted.

Definition sampleInFlight : SessionState :=
  commit (started firstSubmission) samplePrompted.

Definition sampleWithResult : SessionState :=
  {| originalImageFile := Some sampleFile;
     originalImagePreview := Some "blob:1";
     editedImage := Some "data:image/png;base64,AAAA";
     prompt := "add a glow";
     isLoading := false;
     error := None |}.

(** A second submission from there, which the service fails. *)
Definition secondSubmission : Submission :=
  handleSubmit sampleTypeErrorMessage badService platformRead sampleWithResult.

Definition sampleAfterFailure : SessionState :=
  match settled secondSubmission with
  | Some us => commit us (commit (started secondSubmission) sampleWithResult)
  | None => commit (started secondSubmission) sampleWithResult
  end.

Definition sampleBlank : SessionState :=
  {| originalImageFile := Some sampleFile;
     originalImagePreview := Some "blob:1";
     editedImage := Some "data:image/png;base64,AAAA";
     prompt := "   ";
     isLoading := false;
     error := None |}.

Definition sampleJpeg : SessionState :=
  {| originalImageFile := Some sampleFile;
     originalImagePreview := Some "blob:1";
     editedImage := Some "data:image/jpeg;base64,AAAA";
     prompt := "add a glow";
     isLoading := false;
     error := None |}.

(** Names the bits of every octet in the goal, with the fact [lemma]
    about each. *)
Ltac open_bits_with lemma :=
  repeat match goal with
    | |- context [Base64.bits ?x] =>
        let H := fresh "Hbits" in
        pose proof (lemma x) as H;
        destruct (Base64.bits x) as [[[[[[[? ?] ?] ?] ?] ?] ?] ?]
    end.

(* ================================================================== *)
(** ** Rendering: [ImageCard] and the two cards of [App] *)

(** What an [ImageCard] puts inside its frame. *)
Inductive Element : Type :=
| SpinnerIcon
| Image (src : string)
| PlaceholderText (text : string)
| DownloadButton.

(** The props of [ImageCard]; [onDownload] is only recorded as given or
    not, [cardIsLoading] is [false] when the prop is left out. *)
Record ImageCardProps : Type := mkImageCardProps {
  title : string;
  imageUrl : option string;
  cardIsLoading : bool;
  onDownload : bool
}.

(** The four conditional children of the card, in their order. *)
Definition ImageCard (props : ImageCardProps) : list Element :=
  ((if cardIsLoading props then [SpinnerIcon] else []) ++
   (match imageUrl props with
    | Some url => if negb (cardIsLoading props) && truthy url then [Image url] else []
    | None => []
    end) ++
   (if negb (cardIsLoading props) && negb (present (imageUrl props)) then
      [PlaceholderText (if String.eqb (title props) "Original"
                        then "Upload an image to start"
                        else "Your edited image will appear here")]
    else []) ++
   (if negb (cardIsLoading props) && present (imageUrl props) && onDownload props
    then [DownloadButton] else []))%list.

Definition originalCard (s : SessionState) : list Element :=
  ImageCard {| title := "Original"; imageUrl := originalImagePreview s;
               cardIsLoading := false; onDownload := false |}.

Definition editedCard (s : SessionState) : list Element :=
  ImageCard {| title := "Edited"; imageUrl := editedImage s;
               cardIsLoading := isLoading s; onDownload := true |}.

(** The alert of [App]: shown for a non-empty error. *)
Definition errorAlert (s : SessionState) : option string :=
  match error s with
  | Some msg => if truthy msg then Some msg else None
  | None => None
  end.

(* ================================================================== *)
(** ** Preview URLs over a run of file selections *)

(** The cleanup of the effect registered for a preview. *)
Definition previewCleanup (preview : option string) : list Effect :=
  match preview with
  | Some url => if truthy url then [RevokeObjectURL url] else []
  | None => []
  end.

(** The dependency [originalImagePreview] of the effect is unchanged. *)
Definition samePreview (a b : option string) : bool :=
  match a, b with
  | Some x, Some y => String.eqb x y
  | None, None => true
  | _, _ => false
  end.

(** The cleanup that a render from [s] to [s'] runs: the one registered
    for the preview of [s], when the preview has changed. *)
Definition renderCleanup (s s' : SessionState) : list Effect :=
  if samePreview (originalImagePreview s) (originalImagePreview s') then []
  else previewCleanup (originalImagePreview s).

(** The user picks files one after the other; each pick comes with the
    object URL the browser hands out for it.  The result is the last
    state and everything that was called on the way. *)
Fixpoint selectFiles (picks : list (File * string)) (s : SessionState)
  : SessionState * list Effect :=
  match picks with
  | [] => (s, [])
  | (file, objectURL) :: rest =>
      let h := handleImageChange (Some file) objectURL s in
      let s' := commit (updates h) s in
      let (final, log) := selectFiles rest s' in
      (final, (effects h ++ renderCleanup s s' ++ log)%list)
  end.

(** The component is removed: the cleanup of the current preview runs. *)
Definition unmount (s : SessionState) : list Effect :=
  previewCleanup (originalImagePreview s).

Definition revokedURLs (log : list Effect) : list string :=
  flat_map (fun e => match e with RevokeObjectURL url => [url] | _ => [] end) log.

(* ================================================================== *)
(** ** What every reachable configuration satisfies *)

(** A URI of the form the edit client builds. *)
Definition dataURI (uri : string) : Prop :=
  exists mediaType payload, uri = "data:" ++ mediaType ++ ";base64," ++ payload.

(** The setter calls of an awaited completion: a result that is a data
    URI, or an error message that is none of the two messages that no
    awaited failure produces; the flag is cleared last. *)
Definition completion (us : list Update) : Prop :=
  (exists uri, dataURI uri /\ us = [SetEditedImage (Some uri); SetIsLoading false]) \/
  (exists msg,
      msg <> uploadFirstMessage /\ msg <> unexpectedErrorMessage /\
      us = [SetError (Some msg); SetIsLoading false]).

Definition sessionInvariant (c : Config) : Prop :=
  List.length (snd c) <= 1 /\
  (isLoading (fst c) = true <-> snd c <> []) /\
  (originalImageFile (fst c) = None <-> originalImagePreview (fst c) = None) /\
  (snd c <> [] \/ editedImage (fst c) <> None \/ error (fst c) <> None ->
   originalImageFile (fst c) <> None) /\
  (forall uri, editedImage (fst c) = Some uri -> dataURI uri) /\
  error (fst c) <> Some uploadFirstMessage /\
  error (fst c) <> Some unexpectedErrorMessage /\
  Forall completion (snd c).

(* ================================================================== *)
(** ** Further sample values *)

(** A response whose only image sits in its second candidate. *)
Definition hiddenImage : Response :=
  {| candidates :=
       Some [ {| candidateContent := Some {| parts := Some textOnly |} |};
              {| candidateContent :=
                   Some {| parts := Some [imagePart "image/png" "AAAA"] |} |} ] |}.

Definition otherFile : File :=
  {| name := "d.jpg"; type := "image/jpeg"; content := [x44] |}.

Definition samplePicks : list (File * string) :=
  [(sampleFile, "blob:1"); (otherFile, "blob:2")].

(** Another file is chosen while the first submission is awaited. *)
Definition sampleStale : SessionState :=
  commit (updates (handleImageChange (Some otherFile) "blob:2" sampleInFlight))
         sampleInFlight.

(* ================================================================== *)
(** ** The whole call, with the construction of the client

    [new GoogleGenAI({ apiKey })] on line 11 runs before the [try] block.
    When the constructor throws, the promise of the function rejects with
    that very value: the [catch] block never sees it.  [construct] is what
    the constructor throws, [None] when it returns the client. *)

Definition editImageWithPromptCall (construct : option Thrown)
  (typeErrorMessage : Fault -> string) (generateContent : Request -> Promise Response)
  (base64ImageData mimeType prompt : string) : Promise string :=
  match construct with
  | Some thrown => Rejected thrown
  | None =>
      editImageWithPrompt typeErrorMessage generateContent base64ImageData mimeType prompt
  end.

Section SubmitCall.

Variable construct : option Thrown.
Variable typeErrorMessage : Fault -> string.
Variable generateContent : Request -> Promise Response.
Variable read : File -> ReadOutcome.

(** The two awaited calls of the [try] block of [handleSubmit]. *)
Definition pipelineCall (file : File) (prompt : string) : Promise string :=
  base64Data <- fileToBase64 (read file) ;;
  editImageWithPromptCall construct typeErrorMessage generateContent
    base64Data (type file) prompt.

(** [handleSubmit], with the client constructor in the edit client. *)
Definition handleSubmitCall (s : SessionState) : Submission :=
  match originalImageFile s with
  | None =>
      {| started := [SetError (Some uploadFirstMessage)];
         invoked := [];
         settled := None |}
  | Some file =>
      if negb (truthy (trim (prompt s))) then
        {| started := [SetError (Some enterPromptMessage)];
           invoked := [];
           settled := None |}
      else
        {| started := [SetIsLoading true; SetError None; SetEditedImage None];
           invoked :=
             FileToBase64 file ::
             match fileToBase64 (read file) with
             | Resolved base64Data =>
                 [EditImageWithPrompt base64Data (type file) (prompt s)]
             | Rejected _ => []
             end;
           settled :=
             Some (match pipelineCall file (prompt s) with
                   | Resolved result => [SetEditedImage (Some result)]
                   | Rejected err => [SetError (Some (errorMessage err))]
                   end ++ [SetIsLoading false])%list |}
  end.

End SubmitCall.

(** The session with the constructor: as [step], but every submission
    comes with what the constructor does in it, which is one of the
    behaviours [sdk] allows. *)
Inductive stepCall (sdk : option Thrown -> Prop) : Config -> Config -> Prop :=
| stepCall_select s q file objectURL :
    stepCall sdk (s, q)
      (commit (updates (handleImageChange (Some file) objectURL s)) s, q)
| stepCall_prompt s q v :
    promptDisabled s = false ->
    stepCall sdk (s, q) (commit [SetPrompt v] s, q)
| stepCall_submit s q construct typeErrorMessage generateContent read :
    submitDisabled s = false ->
    sdk construct ->
    let r := handleSubmitCall construct typeErrorMessage generateContent read s in
    stepCall sdk (s, q) (commit (started r) s, (q ++ awaiting r)%list)
| stepCall_settle s q1 us q2 :
    stepCall sdk (s, (q1 ++ us :: q2)%list) (commit us s, (q1 ++ q2)%list)
| stepCall_download s q :
    stepCall sdk (s, q) (commit (updates (handleDownload s)) s, q).

Inductive reachableCall (sdk : option Thrown -> Prop) : Config -> Prop :=
| reachableCall_init : reachableCall sdk (initialState, [])
| reachableCall_step c c' :
    reachableCall sdk c -> stepCall sdk c c' -> reachableCall sdk c'.

(** The error shown is neither the request for an upload nor the
    fallback of the [catch] clause. *)
Definition shownError (e : option string) : Prop :=
  e <> Some uploadFirstMessage /\ e <> Some unexpectedErrorMessage.

(** The constructor throws nothing but [Error] objects, and none with one
    of those two messages. *)
Definition throwsErrors (sdk : option Thrown -> Prop) : Prop :=
  forall thrown,
    sdk (Some thrown) ->
    exists msg,
      thrown = ErrorObj msg /\
      msg <> uploadFirstMessage /\ msg <> unexpectedErrorMessage.

(** Sample values: a constructor that refuses a missing key, one that
    throws a string, and results with unusual media types. *)
Definition missingKey : Thrown :=
  ErrorObj "An API Key must be set when running in a browser".

Definition sampleSdk (construct : option Thrown) : Prop :=
  construct = None \/ construct = Some missingKey.

Definition anySdk (construct : option Thrown) : Prop := True.

Definition keylessSubmission : Submission :=
  handleSubmitCall (Some missingKey) sampleTypeErrorMessage goodService platformRead
    samplePrompted.

Definition sampleKeyless : SessionState :=
  {| originalImageFile := Some sampleFile;
     originalImagePreview := Some "blob:1";
     editedImage := None;
     prompt := "add a glow";
     isLoading := false;
     error := Some "An API Key must be set when running in a browser" |}.

Definition sampleFallback : SessionState :=
  {| originalImageFile := Some sampleFile;
     originalImagePreview := Some "blob:1";
     editedImage := None;
     prompt := "add a glow";
     isLoading := false;
     error := Some "An unexpected error occurred." |}.

Definition sampleTwoSlashes : SessionState :=
  {| originalImageFile := Some sampleFile;
     originalImagePreview := Some "blob:1";
     editedImage := Some "data:image/x/y;base64,AAAA";
     prompt := "add a glow";
     isLoading := false;
     error := None |}.

(* ================================================================== *)
(** * Properties *)

(** ** Strings: [split], [includes], [trim] *)

Section StringFacts.

Variable c : ascii.

Lemma lacks_app (a b : string) :
  lacks c (a ++ b) = lacks c a && lacks c b.
Proof.
  induction a as [|d a IH]; simpl; [reflexivity|].
  now rewrite IH, andb_assoc.
Qed.

Lemma beforeFirst_lacks (a : string) :
  lacks c a = true -> beforeFirst c a = a.
Proof.
  induction a as [|d a IH]; simpl; [reflexivity|].
  intros H. apply andb_true_iff in H as [Hd Ha].
  apply negb_true_iff in Hd. rewrite Hd. now rewrite IH.
Qed.

Lemma beforeFirst_app (a b : string) :
  lacks c a = true -> beforeFirst c (a ++ String c b) = a.
Proof.
  induction a as [|d a IH]; simpl.
  - intros _. now rewrite Ascii.eqb_refl.
  - intros H. apply andb_true_iff in H as [Hd Ha].
    apply negb_true_iff in Hd. rewrite Hd. now rewrite IH.
Qed.

Lemma afterFirst_lacks (a : string) :
  lacks c a = true -> afterFirst c a = None.
Proof.
  induction a as [|d a IH]; simpl; [reflexivity|].
  intros H. apply andb_true_iff in H as [Hd Ha].
  apply negb_true_iff in Hd. rewrite Hd. now apply IH.
Qed.

Lemma afterFirst_app (a b : string) :
  lacks c a = true -> afterFirst c (a ++ String c b) = Some b.
Proof.
  induction a as [|d a IH]; simpl.
  - intros _. now rewrite Ascii.eqb_refl.
  - intros H. apply andb_true_iff in H as [Hd Ha].
    apply negb_true_iff in Hd. rewrite Hd. now apply IH.
Qed.

(** [split] never returns the empty array. *)
Lemma split_cons (s : string) :
  exists seg segs, split c s = seg :: segs.
Proof.
  destruct s as [|d s]; simpl; [now eexists; eexists|].
  destruct (Ascii.eqb d c); [now eexists; eexists|].
  destruct (split c s); now eexists; eexists.
Qed.

(** [s.split(c)[0]] is the text before the first [c]. *)
Lemma split_at_0 (s : string) :
  at_index (split c s) 0 = Some (beforeFirst c s).
Proof.
  induction s as [|d s IH]; simpl; [reflexivity|].
  destruct (Ascii.eqb d c); [reflexivity|].
  destruct (split c s) as [|seg segs]; simpl in *; [discriminate|].
  now injection IH as ->.
Qed.

(** [s.split(c)[1]] is the text between the first [c] and the next one;
    it is [undefined] when [c] does not occur. *)
Lemma split_at_1 (s : string) :
  at_index (split c s) 1 = option_map (beforeFirst c) (afterFirst c s).
Proof.
  induction s as [|d s IH]; simpl; [reflexivity|].
  destruct (Ascii.eqb d c); simpl.
  - apply split_at_0.
  - destruct (split_cons s) as (seg & segs & E). rewrite E in *. exact IH.
Qed.

End StringFacts.

Lemma append_assoc (a b d : string) : (a ++ b) ++ d = a ++ (b ++ d).
Proof.
  induction a as [|x a IH]; simpl; [reflexivity|]. now rewrite IH.
Qed.

Lemma prefix_refl (s : string) : String.prefix s s = true.
Proof.
  induction s as [|a s IH]; simpl; [reflexivity|].
  destruct (ascii_dec a a); [exact IH | congruence].
Qed.

Lemma includes_eq (needle s : string) :
  includes needle s =
  String.prefix needle s ||
  match s with
  | EmptyString => false
  | String _ s' => includes needle s'
  end.
Proof. now destruct s. Qed.

(** A string includes each of its suffixes. *)
Lemma includes_suffix (needle a : string) :
  includes needle (a ++ needle) = true.
Proof.
  induction a as [|d a IH].
  - rewrite includes_eq. change ("" ++ needle) with needle.
    now rewrite prefix_refl.
  - change (String d a ++ needle) with (String d (a ++ needle)).
    rewrite includes_eq, IH. apply orb_true_r.
Qed.

Lemma trimStart_blank (s : string) : blank s = true -> trimStart s = "".
Proof.
  induction s as [|d s IH]; simpl; [reflexivity|].
  intros H. apply andb_true_iff in H as [Hd Hs]. now rewrite Hd, IH.
Qed.

Lemma blank_trimStart (s : string) : blank (trimStart s) = true -> blank s = true.
Proof.
  induction s as [|d s IH]; simpl; [reflexivity|].
  destruct (isWhiteSpace d) eqn:Hd; simpl.
  - exact IH.
  - rewrite Hd. simpl. exact (fun H => H).
Qed.

Lemma blank_trimEnd (s : string) : trimEnd s = "" -> blank s = true.
Proof.
  induction s as [|d s IH]; simpl; [reflexivity|].
  destruct (trimEnd s) eqn:E; [|discriminate].
  destruct (isWhiteSpace d); [intros _; now apply IH | discriminate].
Qed.

(** [trim] leaves nothing exactly when the text is blank. *)
Lemma trim_blank (s : string) : truthy (trim s) = negb (blank s).
Proof.
  unfold trim. destruct (blank s) eqn:B; simpl.
  - now rewrite trimStart_blank.
  - destruct (trimEnd (trimStart s)) eqn:E; [|reflexivity].
    apply blank_trimEnd, blank_trimStart in E. congruence.
Qed.

(** ** The encoder *)

(** The [onload] callback resolves with the text between the first and
    the second comma of the read result, and rejects when there is no
    such text. *)
Lemma onload_between_commas (result : string) :
  onload result =
  match afterFirst "," result with
  | Some rest =>
      if truthy (beforeFirst "," rest) then Resolved (beforeFirst "," rest)
      else Rejected (ErrorObj emptyResultMessage)
  | None => Rejected (ErrorObj emptyResultMessage)
  end.
Proof.
  unfold onload. rewrite split_at_1.
  now destruct (afterFirst "," result).
Qed.

(** A read result with two commas: what [onload] resolves with stops at
    the second one. *)
Example onload_second_comma :
  fileToBase64 (Loaded "data:text/plain,a,b") = Resolved "a".
Proof. reflexivity. Qed.

(** C3, as stated, fails: the read of a zero-byte file yields a data URI
    after whose first comma nothing follows, and [fileToBase64] rejects
    instead of resolving with that (empty) text; and where the text after
    the first comma holds another comma, the resolved value stops there. *)
Lemma fileToBase64_after_first_comma_counterexample :
  (afterFirst "," "data:image/png;base64," = Some "" /\
   fileToBase64 (Loaded "data:image/png;base64,")
     = Rejected (ErrorObj emptyResultMessage)) /\
  (afterFirst "," "data:image/x,y;base64,QUJD" = Some "y;base64,QUJD" /\
   fileToBase64 (Loaded "data:image/x,y;base64,QUJD") = Resolved "y;base64").
Proof. repeat split. Qed.

(** With no further comma after the first one, everything after it is
    the resolved value. *)
Lemma onload_payload (result payload : string) :
  afterFirst "," result = Some payload ->
  lacks "," payload = true ->
  onload result =
  if truthy payload then Resolved payload
  else Rejected (ErrorObj emptyResultMessage).
Proof.
  intros Hafter Hlacks. rewrite onload_between_commas, Hafter.
  now rewrite (beforeFirst_lacks _ _ Hlacks).
Qed.

(** C3 (amended): when the text after the first comma of the read result
    holds no further comma, [fileToBase64] resolves with exactly that text
    if it is not empty, and rejects with the empty-result error if it is
    empty. *)
Theorem fileToBase64_strips_prefix (result payload : string) :
  afterFirst "," result = Some payload ->
  lacks "," payload = true ->
  (payload <> "" -> fileToBase64 (Loaded result) = Resolved payload) /\
  (payload = "" ->
   fileToBase64 (Loaded result) = Rejected (ErrorObj emptyResultMessage)).
Proof.
  intros Hafter Hlacks. simpl. rewrite (onload_payload _ _ Hafter Hlacks).
  split; intros H.
  - destruct payload; [congruence | reflexivity].
  - now subst payload.
Qed.

Lemma fileToBase64_strips_prefix_witness :
  afterFirst "," "data:image/png;base64,QUJD" = Some "QUJD" /\
  lacks "," "QUJD" = true /\
  fileToBase64 (Loaded "data:image/png;base64,QUJD") = Resolved "QUJD".
Proof.
  split; [reflexivity|]. split; [reflexivity|].
  apply (fileToBase64_strips_prefix "data:image/png;base64,QUJD" "QUJD");
    [reflexivity | reflexivity | discriminate].
Defined.

(** A read result without any comma is rejected. *)
Lemma fileToBase64_no_comma (result : string) :
  lacks "," result = true ->
  fileToBase64 (Loaded result) = Rejected (ErrorObj emptyResultMessage).
Proof.
  intros H. simpl. rewrite onload_between_commas.
  now rewrite (afterFirst_lacks _ _ H).
Qed.

(** A failed read is reported with the printed event. *)
Lemma fileToBase64_read_error (ev : string) :
  fileToBase64 (Failed ev) = Rejected (ErrorObj ("File could not be read: " ++ ev)).
Proof. reflexivity. Qed.

(** ** base64 *)

Module Base64Facts.
Import Base64.

Lemma sextet_of_char_of_sextet (s : Sextet) :
  sextet_of_char (char_of_sextet s) = Some s.
Proof.
  destruct s as [[[[[[] []] []] []] []] []]; reflexivity.
Qed.

Lemma char_of_sextet_not_pad (s : Sextet) :
  Ascii.eqb (char_of_sextet s) pad = false.
Proof.
  destruct s as [[[[[[] []] []] []] []] []]; reflexivity.
Qed.

Lemma char_of_sextet_not_comma (s : Sextet) :
  Ascii.eqb (char_of_sextet s) "," = false.
Proof.
  destruct s as [[[[[[] []] []] []] []] []]; reflexivity.
Qed.

Lemma octet_bits (b : byte) :
  let '(b7, b6, b5, b4, b3, b2, b1, b0) := bits b in
  octet b7 b6 b5 b4 b3 b2 b1 b0 = b.
Proof.
  unfold bits, octet. pose proof (Byte.of_bits_to_bits b) as H.
  destruct (Byte.to_bits b) as (b0 & b1 & b2 & b3 & b4 & b5 & b6 & b7).
  exact H.
Qed.

(** Induction on lists three elements at a time. *)
Lemma list_ind3 {A : Type} (P : list A -> Prop) :
  P [] ->
  (forall x, P [x]) ->
  (forall x y, P [x; y]) ->
  (forall x y z l, P l -> P (x :: y :: z :: l)) ->
  forall l, P l.
Proof.
  intros H0 H1 H2 H3 l.
  assert (H : P l /\ (forall x, P (x :: l)) /\ (forall x y, P (x :: y :: l))).
  { induction l as [|a l (IH0 & IH1 & IH2)]; [now auto|].
    split; [apply IH1|]. split; [intros; apply IH2 | intros; now apply H3]. }
  exact (proj1 H).
Qed.

Ltac open_bits := open_bits_with octet_bits.

Lemma decode_cons4 (c1 c2 c3 c4 : ascii) (rest : string) :
  decode (String c1 (String c2 (String c3 (String c4 rest)))) =
  match rest with
  | EmptyString =>
      if Ascii.eqb c4 pad then decode_tail c1 c2 c3
      else decode_group c1 c2 c3 c4
  | _ =>
      match decode_group c1 c2 c3 c4, decode rest with
      | Some g, Some bs => Some (g ++ bs)%list
      | _, _ => None
      end
  end.
Proof. reflexivity. Qed.

Lemma encode_lacks_comma (bs : list byte) :
  lacks "," (encode bs) = true.
Proof.
  induction bs as [| x | x y | x y z l IH] using list_ind3;
    cbn [encode]; open_bits; cbn [chars fold_right lacks];
    rewrite ?char_of_sextet_not_comma; try reflexivity.
  exact IH.
Qed.

Lemma encode_nil (bs : list byte) : encode bs = "" -> bs = [].
Proof.
  destruct bs as [|x [|y [|z l]]]; [reflexivity| | |];
    cbn [encode]; open_bits; cbn [chars fold_right]; discriminate.
Qed.

(** Decoding undoes encoding. *)
Lemma decode_encode (bs : list byte) : decode (encode bs) = Some bs.
Proof.
  induction bs as [| x | x y | x y z l IH] using list_ind3.
  - reflexivity.
  - cbn [encode]. open_bits. cbn [chars fold_right].
    rewrite decode_cons4. unfold decode_tail.
    rewrite !sextet_of_char_of_sextet. simpl Ascii.eqb. cbv iota.
    now subst.
  - cbn [encode]. open_bits. cbn [chars fold_right].
    rewrite decode_cons4. unfold decode_tail.
    rewrite !sextet_of_char_of_sextet, char_of_sextet_not_pad.
    simpl Ascii.eqb. cbv iota. now subst.
  - assert (G : forall s1 s2 s3 s4 : Sextet,
               decode_group (char_of_sextet s1) (char_of_sextet s2)
                            (char_of_sextet s3) (char_of_sextet s4)
               = match s1, s2, s3, s4 with
                 | (x7, x6, x5, x4, x3, x2), (x1, x0, y7, y6, y5, y4),
                   (y3, y2, y1, y0, z7, z6), (z5, z4, z3, z2, z1, z0) =>
                     Some [octet x7 x6 x5 x4 x3 x2 x1 x0;
                           octet y7 y6 y5 y4 y3 y2 y1 y0;
                           octet z7 z6 z5 z4 z3 z2 z1 z0]
                 end).
    { intros. unfold decode_group. now rewrite !sextet_of_char_of_sextet. }
    cbn [encode]. open_bits. cbn [chars fold_right].
    rewrite decode_cons4, G, char_of_sextet_not_pad. subst.
    destruct (encode l) eqn:E.
    + now rewrite (encode_nil l E).
    + now rewrite IH.
Qed.

End Base64Facts.

(** The encoding agrees with the test vectors of RFC 4648. *)
Example encode_vectors :
  Base64.encode [x66] = "Zg==" /\
  Base64.encode [x66; x6f] = "Zm8=" /\
  Base64.encode [x66; x6f; x6f] = "Zm9v" /\
  Base64.encode [x66; x6f; x6f; x62] = "Zm9vYg==" /\
  Base64.encode [x66; x6f; x6f; x62; x61; x72] = "Zm9vYmFy".
Proof. repeat split. Qed.

Lemma endsWith_suffix (suffix a : string) : endsWith suffix (a ++ suffix) = true.
Proof.
  induction a as [|d a IH].
  - change ("" ++ suffix) with suffix.
    destruct suffix; simpl; [reflexivity|]. now rewrite Ascii.eqb_refl, String.eqb_refl.
  - change (String d a ++ suffix) with (String d (a ++ suffix)).
    cbn [endsWith]. rewrite IH. apply orb_true_r.
Qed.

(** The encoder's result on a file that is read as the platform reads
    it: for a file with a comma-free media type and at least one byte, the
    base64 text of its bytes. *)
Lemma fileToBase64_readAsDataURL (file : File) :
  content file <> [] ->
  lacks "," (type file) = true ->
  fileToBase64 (Loaded (readAsDataURL file)) = Resolved (Base64.encode (content file)).
Proof.
  intros Hne Hty.
  assert (Hafter : afterFirst "," (readAsDataURL file)
                   = Some (Base64.encode (content file))).
  { unfold readAsDataURL.
    change ("data:" ++ type file ++ ";base64," ++ Base64.encode (content file))
      with ("data:" ++ (type file ++ ";base64," ++ Base64.encode (content file))).
    replace ("data:" ++ (type file ++ ";base64," ++ Base64.encode (content file)))
      with (("data:" ++ type file ++ ";base64") ++ String "," (Base64.encode (content file))).
    - apply afterFirst_app. simpl. rewrite lacks_app, Hty. reflexivity.
    - rewrite !append_assoc. reflexivity. }
  simpl. rewrite (onload_payload _ _ Hafter (Base64Facts.encode_lacks_comma _)).
  destruct (Base64.encode (content file)) eqn:E; [|reflexivity].
  apply Base64Facts.encode_nil in E. contradiction.
Qed.

Lemma base64_uri_parts (mediaType payload : string) :
  lacks "," mediaType = true ->
  beforeFirst "," (mediaType ++ ";base64," ++ payload) = mediaType ++ ";base64" /\
  afterFirst "," (mediaType ++ ";base64," ++ payload) = Some payload.
Proof.
  intros H.
  assert (E : mediaType ++ ";base64," ++ payload
              = (mediaType ++ ";base64") ++ String "," payload).
  { rewrite append_assoc. reflexivity. }
  rewrite E.
  assert (L : lacks "," (mediaType ++ ";base64") = true).
  { rewrite lacks_app, H. reflexivity. }
  split; [now apply beforeFirst_app | now apply afterFirst_app].
Qed.

(** Decoding a data URI assembled from a comma-free media type and the
    encoding of some bytes gives the bytes back. *)
Lemma decodeDataURI_encode (mediaType : string) (bs : list byte) :
  lacks "," mediaType = true ->
  decodeDataURI ("data:" ++ mediaType ++ ";base64," ++ Base64.encode bs) = Some bs.
Proof.
  intros H. unfold decodeDataURI.
  change (stripPrefix "data:" ("data:" ++ mediaType ++ ";base64," ++ Base64.encode bs))
    with (Some (mediaType ++ ";base64," ++ Base64.encode bs)).
  destruct (base64_uri_parts mediaType (Base64.encode bs) H) as [-> ->].
  rewrite endsWith_suffix. apply Base64Facts.decode_encode.
Qed.

(** C7: for a file with at least one byte and a comma-free media type,
    the string [fileToBase64] resolves with, put back behind
    ["data:" ++ type ++ ";base64,"], decodes to the bytes of the file. *)
Theorem fileToBase64_round_trip (file : File) :
  content file <> [] ->
  lacks "," (type file) = true ->
  exists payload,
    fileToBase64 (Loaded (readAsDataURL file)) = Resolved payload /\
    decodeDataURI ("data:" ++ type file ++ ";base64," ++ payload) = Some (content file).
Proof.
  intros Hne Hty. exists (Base64.encode (content file)). split.
  - now apply fileToBase64_readAsDataURL.
  - now apply decodeDataURI_encode.
Qed.

Lemma fileToBase64_round_trip_witness :
  content sampleFile <> [] /\
  lacks "," (type sampleFile) = true /\
  exists payload,
    fileToBase64 (Loaded (readAsDataURL sampleFile)) = Resolved payload /\
    decodeDataURI ("data:" ++ type sampleFile ++ ";base64," ++ payload)
      = Some (content sampleFile).
Proof.
  split; [discriminate|]. split; [reflexivity|].
  apply (fileToBase64_round_trip sampleFile); [discriminate | reflexivity].
Defined.

(** A zero-byte file is rejected with the empty-result error. *)
Example fileToBase64_zero_bytes :
  fileToBase64 (Loaded (readAsDataURL {| name := "e.png"; type := "image/png"; content := [] |}))
  = Rejected (ErrorObj "Failed to convert file to base64: result was empty.").
Proof. reflexivity. Qed.

(** With a comma in the declared media type the resolved text is not the
    payload, and the round trip is lost. *)
Example fileToBase64_comma_in_type :
  fileToBase64 (Loaded (readAsDataURL (mkFile "a" "image/x,y" [x41; x42; x43])))
    = Resolved "y;base64" /\
  decodeDataURI ("data:" ++ "image/x,y" ++ ";base64," ++ "y;base64")
    <> Some [x41; x42; x43].
Proof. split; [reflexivity | discriminate]. Qed.

(** ** The edit client *)

(** The loop returns nothing exactly when no part has inline data. *)
Lemma scanParts_none (ps : list Part) :
  scanParts ps = None <-> Forall (fun part => inlineData part = None) ps.
Proof.
  induction ps as [|part ps IH]; simpl.
  - split; [constructor | reflexivity].
  - destruct (inlineData part) eqn:E.
    + split; [discriminate|]. intros H. inversion H; subst. congruence.
    + rewrite IH. split; [now constructor | intros H; now inversion H].
Qed.

(** Parts without inline data in front of one that has it are skipped,
    whatever follows is not looked at. *)
Lemma scanParts_first (before after : list Part) (part : Part) (d : InlineData) :
  Forall (fun q => inlineData q = None) before ->
  inlineData part = Some d ->
  scanParts (before ++ part :: after)
  = Some ("data:" ++ mimeType d ++ ";base64," ++ data d).
Proof.
  intros Hbefore Hpart.
  induction Hbefore as [|q before Hq _ IH]; simpl.
  - now rewrite Hpart.
  - now rewrite Hq.
Qed.

(** Where some part has inline data there is a first one. *)
Lemma first_inline (ps : list Part) :
  Exists (fun part => inlineData part <> None) ps ->
  exists before part d after,
    ps = (before ++ part :: after)%list /\
    Forall (fun q => inlineData q = None) before /\
    inlineData part = Some d.
Proof.
  induction ps as [|p ps IH]; intros H; [inversion H|].
  destruct (inlineData p) as [d|] eqn:E.
  - exists [], p, d, ps. repeat split; [constructor | exact E].
  - inversion H as [? ? Hp | ? ? Hps]; subst; [congruence|].
    destruct (IH Hps) as (before & part & d & after & -> & Hb & Hd).
    exists (p :: before), part, d, after.
    repeat split; [now constructor | exact Hd].
Qed.

(** The parts are reached exactly when the response has a first
    candidate with a content that has a parts array. *)
Lemma responseParts_inl (response : Response) (ps : list Part) :
  responseParts response = inl ps <->
  exists first rest c,
    candidates response = Some (first :: rest) /\
    candidateContent first = Some c /\
    parts c = Some ps.
Proof.
  unfold responseParts. split.
  - destruct (candidates response) as [[|first rest]|]; try discriminate.
    destruct (candidateContent first) as [c|] eqn:Ec; try discriminate.
    destruct (parts c) as [ps'|] eqn:Ep; try discriminate.
    intros [= ->]. now exists first, rest, c.
  - intros (first & rest & c & -> & -> & ->). reflexivity.
Qed.

Section EditClientFacts.

Variable typeErrorMessage : Fault -> string.
Variable generateContent : Request -> Promise Response.

Local Abbreviation edit := (editImageWithPrompt typeErrorMessage generateContent).

(** The call, once the remote call has resolved. *)
Lemma edit_resolved (base64ImageData mimeType prompt : string) (response : Response) :
  generateContent (editRequest base64ImageData mimeType prompt) = Resolved response ->
  edit base64ImageData mimeType prompt =
  match readResponse typeErrorMessage response with
  | Resolved uri => Resolved uri
  | Rejected error => Rejected (catchBlock error)
  end.
Proof. intros H. unfold editImageWithPrompt. now rewrite H. Qed.

(** The call, once the remote call has thrown. *)
Lemma edit_rejected (base64ImageData mimeType prompt : string) (thrown : Thrown) :
  generateContent (editRequest base64ImageData mimeType prompt) = Rejected thrown ->
  edit base64ImageData mimeType prompt = Rejected (catchBlock thrown).
Proof. intros H. unfold editImageWithPrompt. now rewrite H. Qed.

(** Exactly one request is built, from the three arguments. *)
Lemma editRequest_contents (base64ImageData mimeType prompt : string) :
  contents (editRequest base64ImageData mimeType prompt) =
  [ mkPart (Some (mkInlineData base64ImageData mimeType)) None;
    mkPart None (Some (enhancedPrompt prompt)) ].
Proof. reflexivity. Qed.

(** C4: when the parts of the response hold a part with inline data,
    the call returns the URI built from the first such part; for the
    inline data [image/png], [AAAA] that is
    [data:image/png;base64,AAAA]. *)
Theorem editImageWithPrompt_first_inline_part
  (base64ImageData mimeType0 prompt : string) (response : Response)
  (ps : list Part) :
  generateContent (editRequest base64ImageData mimeType0 prompt) = Resolved response ->
  responseParts response = inl ps ->
  Exists (fun part => inlineData part <> None) ps ->
  exists before part d after,
    ps = (before ++ part :: after)%list /\
    Forall (fun q => inlineData q = None) before /\
    inlineData part = Some d /\
    edit base64ImageData mimeType0 prompt
      = Resolved ("data:" ++ mimeType d ++ ";base64," ++ data d) /\
    (d = {| data := "AAAA"; mimeType := "image/png" |} ->
     edit base64ImageData mimeType0 prompt = Resolved "data:image/png;base64,AAAA").
Proof.
  intros Hcall Hparts Hsome.
  destruct (first_inline ps Hsome) as (before & part & d & after & E & Hb & Hd).
  exists before, part, d, after.
  assert (R : edit base64ImageData mimeType0 prompt
              = Resolved ("data:" ++ mimeType d ++ ";base64," ++ data d)).
  { rewrite (edit_resolved _ _ _ _ Hcall). unfold readResponse.
    rewrite Hparts, E. now rewrite (scanParts_first before after part d Hb Hd). }
  repeat split; try assumption.
  intros ->. exact R.
Qed.

(** C1 (amended): when the parts of the response hold no part with
    inline data, the call fails with an [Error] whose message is the
    no-image text behind the prefix that the [catch] block puts in
    front of every other error message. *)
Theorem editImageWithPrompt_no_image
  (base64ImageData mimeType0 prompt : string) (response : Response)
  (ps : list Part) :
  generateContent (editRequest base64ImageData mimeType0 prompt) = Resolved response ->
  responseParts response = inl ps ->
  Forall (fun part => inlineData part = None) ps ->
  edit base64ImageData mimeType0 prompt
  = Rejected (ErrorObj
      "Failed to edit image: No image data was found in the API response.").
Proof.
  intros Hcall Hparts Hnone.
  rewrite (edit_resolved _ _ _ _ Hcall). unfold readResponse.
  rewrite Hparts. apply scanParts_none in Hnone. now rewrite Hnone.
Qed.

(** C5: what the call fails with when the remote call throws. *)
Theorem editImageWithPrompt_remote_failure
  (base64ImageData mimeType0 prompt : string) (thrown : Thrown) :
  generateContent (editRequest base64ImageData mimeType0 prompt) = Rejected thrown ->
  match thrown with
  | ErrorObj message =>
      if includes "API key not valid" message then
        edit base64ImageData mimeType0 prompt
          = Rejected (ErrorObj
              "The provided API key is not valid. Please check your configuration.")
        /\ "The provided API key is not valid. Please check your configuration."
           <> message
      else
        edit base64ImageData mimeType0 prompt
          = Rejected (ErrorObj ("Failed to edit image: " ++ message))
        /\ includes message ("Failed to edit image: " ++ message) = true
  | NonError _ =>
      edit base64ImageData mimeType0 prompt
        = Rejected (ErrorObj
            "An unknown error occurred while communicating with the AI model.")
  end.
Proof.
  intros Hcall. rewrite (edit_rejected _ _ _ _ Hcall).
  destruct thrown as [message | printed]; simpl catchBlock; [|reflexivity].
  destruct (includes "API key not valid" message) eqn:Hkey.
  - split; [reflexivity|]. intros <-. discriminate Hkey.
  - split; [reflexivity|]. apply includes_suffix.
Qed.

(** C9: when the response has an empty candidates array, or a first
    candidate without content or without a parts array, the access
    faults and the call fails with the [catch] block's rewriting of the
    engine's [TypeError]: its text behind the generic prefix, not the
    no-image message.  The loop over the parts is only reached for a
    response that has a first candidate with a parts array. *)
Theorem editImageWithPrompt_absent_candidate
  (base64ImageData mimeType0 prompt : string) (response : Response) :
  (forall fault, includes "API key not valid" (typeErrorMessage fault) = false) ->
  generateContent (editRequest base64ImageData mimeType0 prompt) = Resolved response ->
  candidates response = Some [] \/
  (exists first rest,
      candidates response = Some (first :: rest) /\
      (candidateContent first = None \/
       candidateContent first = Some {| parts := None |})) ->
  (exists fault,
      responseParts response = inr fault /\
      edit base64ImageData mimeType0 prompt
        = Rejected (ErrorObj ("Failed to edit image: " ++ typeErrorMessage fault))) /\
  edit base64ImageData mimeType0 prompt <> Rejected (ErrorObj noImageMessage) /\
  (forall ps, responseParts response <> inl ps).
Proof.
  intros Hengine Hcall Hshape.
  assert (F : exists fault, responseParts response = inr fault).
  { unfold responseParts.
    destruct Hshape as [-> | (first & rest & -> & [-> | ->])];
      eexists; reflexivity. }
  destruct F as (fault & F).
  assert (R : edit base64ImageData mimeType0 prompt
              = Rejected (ErrorObj ("Failed to edit image: " ++ typeErrorMessage fault))).
  { rewrite (edit_resolved _ _ _ _ Hcall). unfold readResponse. rewrite F.
    simpl catchBlock. now rewrite Hengine. }
  split; [now exists fault|]. split.
  - rewrite R. discriminate.
  - intros ps. rewrite F. discriminate.
Qed.

End EditClientFacts.

Lemma editImageWithPrompt_first_inline_part_witness :
  answering (responseWith twoImages) (editRequest "QUJD" "image/png" "add a glow")
    = Resolved (responseWith twoImages) /\
  responseParts (responseWith twoImages) = inl twoImages /\
  Exists (fun part => inlineData part <> None) twoImages /\
  exists before part d after,
    twoImages = (before ++ part :: after)%list /\
    Forall (fun q => inlineData q = None) before /\
    inlineData part = Some d /\
    editImageWithPrompt sampleTypeErrorMessage (answering (responseWith twoImages))
      "QUJD" "image/png" "add a glow"
      = Resolved ("data:" ++ mimeType d ++ ";base64," ++ data d) /\
    (d = {| data := "AAAA"; mimeType := "image/png" |} ->
     editImageWithPrompt sampleTypeErrorMessage (answering (responseWith twoImages))
       "QUJD" "image/png" "add a glow" = Resolved "data:image/png;base64,AAAA").
Proof.
  assert (H : Exists (fun part => inlineData part <> None) twoImages).
  { apply Exists_cons_tl, Exists_cons_hd. discriminate. }
  split; [reflexivity|]. split; [reflexivity|]. split; [exact H|].
  apply (editImageWithPrompt_first_inline_part sampleTypeErrorMessage
           (answering (responseWith twoImages)) "QUJD" "image/png" "add a glow"
           (responseWith twoImages) twoImages); [reflexivity | reflexivity | exact H].
Defined.

(** The response of the specification's example, evaluated. *)
Example editImageWithPrompt_png_AAAA :
  editImageWithPrompt sampleTypeErrorMessage
    (answering (responseWith [imagePart "image/png" "AAAA"]))
    "QUJD" "image/png" "add a glow"
  = Resolved "data:image/png;base64,AAAA".
Proof. reflexivity. Qed.

(** C1, as stated, fails: for a response with only a text part the call
    fails, but not with the bare no-image message: the [throw] sits inside
    the [try] block, and the [catch] block puts its prefix in front. *)
Lemma editImageWithPrompt_no_image_counterexample :
  scanParts textOnly = None /\
  editImageWithPrompt sampleTypeErrorMessage (answering (responseWith textOnly))
    "QUJD" "image/png" "add a glow"
  <> Rejected (ErrorObj "No image data was found in the API response.") /\
  editImageWithPrompt sampleTypeErrorMessage (answering (responseWith textOnly))
    "QUJD" "image/png" "add a glow"
  = Rejected (ErrorObj
      "Failed to edit image: No image data was found in the API response.").
Proof. repeat split. discriminate. Qed.

Lemma editImageWithPrompt_no_image_witness :
  answering (responseWith textOnly) (editRequest "QUJD" "image/png" "add a glow")
    = Resolved (responseWith textOnly) /\
  responseParts (responseWith textOnly) = inl textOnly /\
  Forall (fun part => inlineData part = None) textOnly /\
  editImageWithPrompt sampleTypeErrorMessage (answering (responseWith textOnly))
    "QUJD" "image/png" "add a glow"
  = Rejected (ErrorObj
      "Failed to edit image: No image data was found in the API response.").
Proof.
  assert (H : Forall (fun part => inlineData part = None) textOnly).
  { repeat constructor. }
  split; [reflexivity|]. split; [reflexivity|]. split; [exact H|].
  apply (editImageWithPrompt_no_image sampleTypeErrorMessage
           (answering (responseWith textOnly)) "QUJD" "image/png" "add a glow"
           (responseWith textOnly) textOnly); [reflexivity | reflexivity | exact H].
Defined.

Lemma editImageWithPrompt_remote_failure_witness :
  throwing invalidKey (editRequest "QUJD" "image/png" "add a glow")
    = Rejected invalidKey /\
  editImageWithPrompt sampleTypeErrorMessage (throwing invalidKey)
    "QUJD" "image/png" "add a glow"
  = Rejected (ErrorObj
      "The provided API key is not valid. Please check your configuration.").
Proof.
  split; [reflexivity|].
  exact (proj1 (editImageWithPrompt_remote_failure sampleTypeErrorMessage
                  (throwing invalidKey) "QUJD" "image/png" "add a glow"
                  invalidKey eq_refl)).
Defined.

Lemma editImageWithPrompt_absent_candidate_witness :
  (forall fault, includes "API key not valid" (sampleTypeErrorMessage fault) = false) /\
  answering noCandidates (editRequest "QUJD" "image/png" "add a glow")
    = Resolved noCandidates /\
  (exists fault,
      responseParts noCandidates = inr fault /\
      editImageWithPrompt sampleTypeErrorMessage (answering noCandidates)
        "QUJD" "image/png" "add a glow"
      = Rejected (ErrorObj ("Failed to edit image: " ++ sampleTypeErrorMessage fault))) /\
  editImageWithPrompt sampleTypeErrorMessage (answering noCandidates)
    "QUJD" "image/png" "add a glow" <> Rejected (ErrorObj noImageMessage) /\
  (forall ps, responseParts noCandidates <> inl ps).
Proof.
  assert (H : forall fault,
             includes "API key not valid" (sampleTypeErrorMessage fault) = false).
  { intros []; reflexivity. }
  split; [exact H|]. split; [reflexivity|].
  apply (editImageWithPrompt_absent_candidate sampleTypeErrorMessage
           (answering noCandidates) "QUJD" "image/png" "add a glow" noCandidates
           H eq_refl).
  left. reflexivity.
Defined.

(** The faults evaluated on one engine's texts. *)
Example editImageWithPrompt_faults :
  editImageWithPrompt sampleTypeErrorMessage (answering {| candidates := Some [] |})
    "QUJD" "image/png" "add a glow"
  = Rejected (ErrorObj
      "Failed to edit image: Cannot read properties of undefined (reading 'content')") /\
  editImageWithPrompt sampleTypeErrorMessage
    (answering {| candidates := Some [ {| candidateContent := None |} ] |})
    "QUJD" "image/png" "add a glow"
  = Rejected (ErrorObj
      "Failed to edit image: Cannot read properties of undefined (reading 'parts')").
Proof. split; reflexivity. Qed.

(** ** The download action *)

(** The media type the handler extracts from a URI that starts with
    ["data:"], up to the first [;]. *)
Lemma downloadExtension_data_uri (segment rest : string) :
  lacks ";" segment = true ->
  lacks ":" segment = true ->
  downloadExtension ("data:" ++ segment ++ String ";" rest)
  = orDefault (at_index (split "/" (orDefault (Some segment) "image/png")) 1) "png".
Proof.
  intros Hsemi Hcolon. unfold downloadExtension.
  rewrite split_at_0.
  replace ("data:" ++ segment ++ String ";" rest)
    with (("data:" ++ segment) ++ String ";" rest) by apply append_assoc.
  rewrite beforeFirst_app by (rewrite lacks_app, Hsemi; reflexivity).
  rewrite (split_at_1 ":" ("data:" ++ segment)).
  change (afterFirst ":" ("data:" ++ segment)) with (Some segment).
  simpl option_map. now rewrite (beforeFirst_lacks ":" segment Hcolon).
Qed.

Lemma extension_of_subtype (ty sub : string) :
  lacks "/" ty = true -> lacks "/" sub = true -> sub <> "" ->
  orDefault (at_index (split "/" (orDefault (Some (ty ++ String "/" sub)) "image/png")) 1) "png"
  = sub.
Proof.
  intros Hty Hsub Hne.
  assert (T : orDefault (Some (ty ++ String "/" sub)) "image/png" = ty ++ String "/" sub).
  { now destruct ty. }
  rewrite T, split_at_1, afterFirst_app by exact Hty.
  simpl option_map. rewrite beforeFirst_lacks by exact Hsub.
  destruct sub; [congruence | reflexivity].
Qed.

Lemma extension_without_slash (segment : string) :
  lacks "/" segment = true ->
  orDefault (at_index (split "/" (orDefault (Some segment) "image/png")) 1) "png" = "png".
Proof.
  intros H. destruct segment as [|a segment]; [reflexivity|].
  change (orDefault (Some (String a segment)) "image/png") with (String a segment).
  rewrite split_at_1, afterFirst_lacks by exact H. reflexivity.
Qed.

Lemma extension_empty_subtype (ty : string) :
  lacks "/" ty = true ->
  orDefault (at_index (split "/" (orDefault (Some (ty ++ "/")) "image/png")) 1) "png" = "png".
Proof.
  intros H.
  assert (T : orDefault (Some (ty ++ "/")) "image/png" = ty ++ "/").
  { now destruct ty. }
  rewrite T, split_at_1, afterFirst_app by exact H. reflexivity.
Qed.

(** C8 (amended): the download of a result [data:<segment>;...] whose
    segment holds no [:] is saved under [alchemized-image.<ext>], where
    [<ext>] is the subtype when the segment is [type/subtype] with a
    non-empty subtype without a further slash, and [png] when the segment
    is empty, has no slash or has nothing after the slash. *)
Theorem handleDownload_extension (s : SessionState) (segment rest : string) :
  editedImage s = Some ("data:" ++ segment ++ String ";" rest) ->
  lacks ";" segment = true ->
  lacks ":" segment = true ->
  exists ext,
    effects (handleDownload s)
      = [ClickDownloadLink ("data:" ++ segment ++ String ";" rest)
                           ("alchemized-image." ++ ext)] /\
    (forall ty sub,
        segment = ty ++ String "/" sub ->
        lacks "/" ty = true -> lacks "/" sub = true -> sub <> "" ->
        ext = sub) /\
    (segment = "image/jpeg" -> ext = "jpeg") /\
    (segment = "" -> ext = "png") /\
    (lacks "/" segment = true -> ext = "png") /\
    (forall ty, segment = ty ++ "/" -> lacks "/" ty = true -> ext = "png").
Proof.
  intros Hresult Hsemi Hcolon.
  exists (downloadExtension ("data:" ++ segment ++ String ";" rest)).
  split.
  - unfold handleDownload. rewrite Hresult. reflexivity.
  - rewrite (downloadExtension_data_uri _ _ Hsemi Hcolon).
    repeat split.
    + intros ty sub -> Hty Hsub Hne. now apply extension_of_subtype.
    + now intros ->.
    + now intros ->.
    + apply extension_without_slash.
    + intros ty ->. apply extension_empty_subtype.
Qed.

(** ** Submission *)

Lemma commit_app (us vs : list Update) (s : SessionState) :
  commit (us ++ vs) s = commit vs (commit us s).
Proof. apply fold_left_app. Qed.

Section SubmitFacts.

Variable typeErrorMessage : Fault -> string.
Variable generateContent : Request -> Promise Response.
Variable read : File -> ReadOutcome.

Local Abbreviation submit := (handleSubmit typeErrorMessage generateContent read).
Local Abbreviation run := (pipeline typeErrorMessage generateContent read).

(** A submission that passes validation. *)
Lemma handleSubmit_accepted (s : SessionState) (file : File) :
  originalImageFile s = Some file ->
  blank (prompt s) = false ->
  started (submit s) = [SetIsLoading true; SetError None; SetEditedImage None] /\
  settled (submit s)
  = Some (match run file (prompt s) with
          | Resolved result => [SetEditedImage (Some result)]
          | Rejected err => [SetError (Some (errorMessage err))]
          end ++ [SetIsLoading false])%list.
Proof.
  intros Hfile Hprompt. unfold handleSubmit.
  rewrite Hfile, trim_blank, Hprompt. split; reflexivity.
Qed.

(** Whatever a submission does after its awaited work has settled ends
    with the flag cleared, in whatever state it is applied. *)
Lemma handleSubmit_settled_clears_flag (s : SessionState) (us : list Update) :
  settled (submit s) = Some us ->
  forall s', isLoading (commit us s') = false.
Proof.
  unfold handleSubmit.
  destruct (originalImageFile s) as [file|]; [|discriminate].
  destruct (negb (truthy (trim (prompt s)))); [discriminate|].
  simpl. intros [= <-] s'. rewrite commit_app. reflexivity.
Qed.

(** After the awaited work a submission makes two setter calls in one
    stretch: the result or the error first, the flag last. *)
Lemma handleSubmit_settled_shape (s : SessionState) (us : list Update) :
  settled (submit s) = Some us ->
  (exists result, us = [SetEditedImage (Some result); SetIsLoading false]) \/
  (exists msg, us = [SetError (Some msg); SetIsLoading false]).
Proof.
  unfold handleSubmit.
  destruct (originalImageFile s) as [file|]; [|discriminate].
  destruct (negb (truthy (trim (prompt s)))); [discriminate|].
  simpl. intros [= <-].
  destruct (run file (prompt s)) as [result|err];
    [left; now exists result | right; now exists (errorMessage err)].
Qed.

(** The two early returns. *)
Lemma handleSubmit_no_file (s : SessionState) :
  originalImageFile s = None ->
  submit s = {| started := [SetError (Some uploadFirstMessage)];
                invoked := [];
                settled := None |}.
Proof. intros H. unfold handleSubmit. now rewrite H. Qed.

Lemma handleSubmit_blank_prompt (s : SessionState) (file : File) :
  originalImageFile s = Some file ->
  blank (prompt s) = true ->
  submit s = {| started := [SetError (Some enterPromptMessage)];
                invoked := [];
                settled := None |}.
Proof.
  intros Hfile Hblank. unfold handleSubmit.
  now rewrite Hfile, trim_blank, Hblank.
Qed.

(** C6: without a file, or with a blank instruction, [handleSubmit]
    calls neither [fileToBase64] nor [editImageWithPrompt], awaits
    nothing, and its only setter call stores the validation message;
    every other cell of the state keeps its value. *)
Theorem handleSubmit_validation (s : SessionState) :
  originalImageFile s = None \/ blank (prompt s) = true ->
  invoked (submit s) = [] /\
  settled (submit s) = None /\
  exists msg,
    started (submit s) = [SetError (Some msg)] /\
    (originalImageFile s = None -> msg = "Please upload an image first.") /\
    (originalImageFile s <> None -> msg = "Please enter an editing prompt.") /\
    commit (started (submit s)) s
    = {| originalImageFile := originalImageFile s;
         originalImagePreview := originalImagePreview s;
         editedImage := editedImage s;
         prompt := prompt s;
         isLoading := isLoading s;
         error := Some msg |}.
Proof.
  intros H.
  destruct (originalImageFile s) as [file|] eqn:Hfile.
  - destruct H as [H|H]; [discriminate|].
    rewrite (handleSubmit_blank_prompt s file Hfile H). simpl.
    split; [reflexivity|]. split; [reflexivity|].
    exists enterPromptMessage.
    split; [reflexivity|]. split; [discriminate|].
    split; [reflexivity | now rewrite Hfile].
  - rewrite (handleSubmit_no_file s Hfile). simpl.
    split; [reflexivity|]. split; [reflexivity|].
    exists uploadFirstMessage.
    split; [reflexivity|]. split; [reflexivity|].
    split; [congruence | now rewrite Hfile].
Qed.

(** C2 (amended): a submission that passed validation and whose awaited
    work fails ends, when nothing else happened in between, in the state
    it was triggered in with the result unset, the flag cleared and the
    failure's message as error: a result obtained before is not kept,
    it was cleared when the submission started.  The failure handling
    itself writes the error and the flag only. *)
Theorem handleSubmit_failure (s : SessionState) (file : File) (err : Thrown) :
  originalImageFile s = Some file ->
  blank (prompt s) = false ->
  run file (prompt s) = Rejected err ->
  exists us,
    settled (submit s) = Some us /\
    commit us (commit (started (submit s)) s)
    = {| originalImageFile := originalImageFile s;
         originalImagePreview := originalImagePreview s;
         editedImage := None;
         prompt := prompt s;
         isLoading := false;
         error := Some (errorMessage err) |} /\
    forall s',
      commit us s'
      = {| originalImageFile := originalImageFile s';
           originalImagePreview := originalImagePreview s';
           editedImage := editedImage s';
           prompt := prompt s';
           isLoading := false;
           error := Some (errorMessage err) |}.
Proof.
  intros Hfile Hprompt Hrun.
  destruct (handleSubmit_accepted s file Hfile Hprompt) as [Hstart Hsettle].
  rewrite Hrun in Hsettle. rewrite Hstart, Hsettle.
  eexists. split; [reflexivity|]. split; reflexivity.
Qed.

End SubmitFacts.

(** ** The in-flight flag *)

Lemma handleDownload_no_update (s : SessionState) : updates (handleDownload s) = [].
Proof.
  unfold handleDownload. destruct (editedImage s) as [uri|]; [|reflexivity].
  now destruct (truthy uri).
Qed.

Lemma submitDisabled_false (s : SessionState) :
  submitDisabled s = false ->
  isLoading s = false /\ exists file, originalImageFile s = Some file.
Proof.
  unfold submitDisabled. intros H. apply orb_false_iff in H as [Hl Hf].
  split; [exact Hl|]. destruct (originalImageFile s) as [file|]; [now exists file | discriminate].
Qed.

Lemma loadingInvariant_step (c c' : Config) :
  loadingInvariant c -> step c c' -> loadingInvariant c'.
Proof.
  intros [Hs Hq] Hstep. unfold loadingInvariant in *.
  destruct Hstep as [s q file objectURL | s q v Hguard
                    | s q tem gc read Hguard r | s q1 us q2 | s q];
    simpl fst in *; simpl snd in *.
  - split; [intros _; split; reflexivity | exact Hq].
  - split; [exact Hs | exact Hq].
  - destruct (submitDisabled_false s Hguard) as [Hidle [file Hfile]].
    split.
    + destruct (blank (prompt s)) eqn:Hblank.
      * subst r. rewrite (handleSubmit_blank_prompt tem gc read s file Hfile Hblank).
        simpl. congruence.
      * destruct (handleSubmit_accepted tem gc read s file Hfile Hblank) as [E _].
        subst r. rewrite E. intros _. split; reflexivity.
    + apply Forall_app. split; [exact Hq|].
      unfold awaiting. destruct (settled r) as [us|] eqn:E; [|constructor].
      constructor; [|constructor].
      exact (handleSubmit_settled_clears_flag tem gc read s us E).
  - apply Forall_app in Hq as [Hq1 Hq2]. inversion Hq2 as [|? ? Hus Hq2']; subst.
    split.
    + rewrite Hus. discriminate.
    + apply Forall_app. split; assumption.
  - rewrite handleDownload_no_update. split; [exact Hs | exact Hq].
Qed.

Lemma loadingInvariant_reachable (c : Config) : reachable c -> loadingInvariant c.
Proof.
  induction 1 as [|c c' _ IH Hstep].
  - split; [discriminate | constructor].
  - exact (loadingInvariant_step c c' IH Hstep).
Qed.

(** C10: in every state the session can reach in which the in-flight
    flag is set, no result and no error is stored. *)
Theorem loading_state_is_cleared (c : Config) :
  reachable c ->
  isLoading (fst c) = true ->
  editedImage (fst c) = None /\ error (fst c) = None.
Proof.
  intros Hreach. exact (proj1 (loadingInvariant_reachable c Hreach)).
Qed.

Lemma sampleInFlight_reachable : reachable (sampleInFlight, awaiting firstSubmission).
Proof.
  apply (reachable_step (samplePrompted, [])).
  - apply (reachable_step (sampleSelected, [])).
    + apply (reachable_step (initialState, [])); [constructor|].
      exact (step_select initialState [] sampleFile "blob:1").
    + exact (step_prompt sampleSelected [] "add a glow" eq_refl).
  - exact (step_submit samplePrompted [] sampleTypeErrorMessage goodService
             platformRead eq_refl).
Qed.

(** The state with a result is one the session reaches. *)
Lemma sampleWithResult_reachable : reachable (sampleWithResult, []).
Proof.
  apply (reachable_step (sampleInFlight, awaiting firstSubmission)).
  - exact sampleInFlight_reachable.
  - exact (step_settle sampleInFlight []
             [SetEditedImage (Some "data:image/png;base64,AAAA"); SetIsLoading false] []).
Qed.

Lemma loading_state_is_cleared_witness :
  reachable (sampleInFlight, awaiting firstSubmission) /\
  isLoading (fst (sampleInFlight, awaiting firstSubmission)) = true /\
  editedImage (fst (sampleInFlight, awaiting firstSubmission)) = None /\
  error (fst (sampleInFlight, awaiting firstSubmission)) = None.
Proof.
  split; [exact sampleInFlight_reachable|]. split; [reflexivity|].
  apply (loading_state_is_cleared (sampleInFlight, awaiting firstSubmission)
           sampleInFlight_reachable).
  reflexivity.
Defined.

Lemma handleSubmit_validation_witness :
  (originalImageFile sampleBlank = None \/ blank (prompt sampleBlank) = true) /\
  invoked (handleSubmit sampleTypeErrorMessage goodService platformRead sampleBlank) = [] /\
  settled (handleSubmit sampleTypeErrorMessage goodService platformRead sampleBlank) = None.
Proof.
  split; [right; reflexivity|].
  destruct (handleSubmit_validation sampleTypeErrorMessage goodService platformRead
              sampleBlank (or_intror eq_refl)) as (Hinvoked & Hsettled & _).
  split; [exact Hinvoked | exact Hsettled].
Defined.

(** C2, as stated, fails: a submission from a state that holds a result,
    failed by the service with no file chosen in between, ends with the
    result unset. *)
Lemma handleSubmit_failure_counterexample :
  reachable (sampleWithResult, []) /\
  pipeline sampleTypeErrorMessage badService platformRead sampleFile "add a glow"
    = Rejected (ErrorObj "Failed to edit image: Failed to fetch") /\
  editedImage sampleWithResult = Some "data:image/png;base64,AAAA" /\
  editedImage sampleAfterFailure = None /\
  editedImage sampleAfterFailure <> editedImage sampleWithResult.
Proof.
  split; [exact sampleWithResult_reachable|].
  repeat split. discriminate.
Qed.

Lemma handleSubmit_failure_witness :
  originalImageFile sampleWithResult = Some sampleFile /\
  blank (prompt sampleWithResult) = false /\
  pipeline sampleTypeErrorMessage badService platformRead sampleFile
    (prompt sampleWithResult)
    = Rejected (ErrorObj "Failed to edit image: Failed to fetch") /\
  exists us,
    settled secondSubmission = Some us /\
    commit us (commit (started secondSubmission) sampleWithResult)
    = {| originalImageFile := Some sampleFile;
         originalImagePreview := Some "blob:1";
         editedImage := None;
         prompt := "add a glow";
         isLoading := false;
         error := Some "Failed to edit image: Failed to fetch" |}.
Proof.
  split; [reflexivity|]. split; [reflexivity|]. split; [reflexivity|].
  destruct (handleSubmit_failure sampleTypeErrorMessage badService platformRead
              sampleWithResult sampleFile
              (ErrorObj "Failed to edit image: Failed to fetch")
              eq_refl eq_refl eq_refl) as (us & Hsettled & Hfinal & _).
  exists us. split; [exact Hsettled | exact Hfinal].
Defined.

Lemma handleDownload_extension_witness :
  editedImage sampleJpeg = Some ("data:" ++ "image/jpeg" ++ String ";" "base64,AAAA") /\
  lacks ";" "image/jpeg" = true /\
  lacks ":" "image/jpeg" = true /\
  effects (handleDownload sampleJpeg)
    = [ClickDownloadLink "data:image/jpeg;base64,AAAA" "alchemized-image.jpeg"].
Proof.
  split; [reflexivity|]. split; [reflexivity|]. split; [reflexivity|].
  destruct (handleDownload_extension sampleJpeg "image/jpeg" "base64,AAAA"
              eq_refl eq_refl eq_refl) as (ext & Heffects & _ & Hjpeg & _).
  rewrite Heffects, (Hjpeg eq_refl). reflexivity.
Defined.

(** The download names evaluated. *)
Example downloadExtension_samples :
  downloadExtension "data:image/jpeg;base64,AAAA" = "jpeg" /\
  downloadExtension "data:image/png;base64,AAAA" = "png" /\
  downloadExtension "data:image/svg+xml;base64,AAAA" = "svg+xml" /\
  downloadExtension "data:;base64,AAAA" = "png" /\
  downloadExtension "data:image;base64,AAAA" = "png" /\
  downloadExtension "data:image/;base64,AAAA" = "png" /\
  downloadExtension "AAAA" = "png".
Proof. repeat split. Qed.

(* ================================================================== *)
(** * Further properties of the code *)

(** ** More on strings *)

Lemma lacks_beforeFirst (c : ascii) (s : string) : lacks c (beforeFirst c s) = true.
Proof.
  induction s as [|d s IH]; simpl; [reflexivity|].
  destruct (Ascii.eqb d c) eqn:E; simpl; [reflexivity|]. now rewrite E.
Qed.

Lemma lacks_beforeFirst_other (c d : ascii) (s : string) :
  lacks d s = true -> lacks d (beforeFirst c s) = true.
Proof.
  induction s as [|x s IH]; simpl; [reflexivity|].
  intros H. apply andb_true_iff in H as [Hx Hs].
  destruct (Ascii.eqb x c); simpl; [reflexivity|]. now rewrite Hx, IH.
Qed.

Lemma lacks_afterFirst (c d : ascii) (s t : string) :
  afterFirst c s = Some t -> lacks d s = true -> lacks d t = true.
Proof.
  induction s as [|x s IH]; simpl; [discriminate|].
  intros Hafter H. apply andb_true_iff in H as [Hx Hs].
  destruct (Ascii.eqb x c); [now injection Hafter as <- | now apply IH].
Qed.

(** A string with the character [c] is what stands before its first
    [c], then [c], then the rest. *)
Lemma afterFirst_split (c : ascii) (s t : string) :
  afterFirst c s = Some t -> s = beforeFirst c s ++ String c t.
Proof.
  revert t. induction s as [|x s IH]; simpl; [discriminate|].
  intros t Hafter. destruct (Ascii.eqb_spec x c) as [->|_].
  - now injection Hafter as ->.
  - simpl. now rewrite <- (IH t Hafter).
Qed.

(** The rest of a string after what stands before its first [c]: nothing,
    or something that starts with [c]. *)
Lemma beforeFirst_split (c : ascii) (s : string) :
  s = beforeFirst c s \/ exists t, s = beforeFirst c s ++ String c t.
Proof.
  destruct (afterFirst c s) as [t|] eqn:E.
  - right. exists t. now apply afterFirst_split.
  - left. symmetry. apply beforeFirst_lacks.
    induction s as [|x s IH]; simpl in *; [reflexivity|].
    destruct (Ascii.eqb x c); [discriminate | now apply IH].
Qed.

Lemma append_tail_inj (a b : string) (c : ascii) :
  a ++ String c "" = b ++ String c "" -> a = b.
Proof.
  revert b. induction a as [|x a IH]; intros [|y b]; simpl; intros H.
  - reflexivity.
  - injection H as _ H. now destruct b.
  - injection H as _ H. now destruct a.
  - injection H as -> H. now rewrite (IH b H).
Qed.

(** ** More on the encoder *)

(** X1: whatever [fileToBase64] resolves with is not empty, holds no
    comma, and stands in the read result right after its first comma, up
    to the next comma or the end. *)
Theorem fileToBase64_resolved (read : ReadOutcome) (payload : string) :
  fileToBase64 read = Resolved payload ->
  payload <> "" /\
  lacks "," payload = true /\
  exists result before,
    read = Loaded result /\
    lacks "," before = true /\
    (result = before ++ String "," payload \/
     exists tail, result = before ++ String "," (payload ++ String "," tail)).
Proof.
  destruct read as [result | ev]; simpl; [|discriminate].
  rewrite onload_between_commas.
  destruct (afterFirst "," result) as [rest|] eqn:Hafter; [|discriminate].
  destruct (truthy (beforeFirst "," rest)) eqn:Htruthy; [|discriminate].
  intros [= <-].
  split; [intros E; rewrite E in Htruthy; discriminate|].
  split; [apply lacks_beforeFirst|].
  exists result, (beforeFirst "," result).
  split; [reflexivity|]. split; [apply lacks_beforeFirst|].
  pose proof (afterFirst_split _ _ _ Hafter) as Hresult.
  destruct (beforeFirst_split "," rest) as [E | [tail E]].
  - left. now rewrite <- E.
  - right. exists tail. now rewrite <- E.
Qed.

Lemma fileToBase64_resolved_witness :
  fileToBase64 (Loaded "data:image/png;base64,QUJD") = Resolved "QUJD" /\
  "QUJD" <> "" /\
  lacks "," "QUJD" = true.
Proof.
  split; [reflexivity|].
  destruct (fileToBase64_resolved (Loaded "data:image/png;base64,QUJD") "QUJD" eq_refl)
    as (Hne & Hlacks & _).
  split; [exact Hne | exact Hlacks].
Defined.

(** X2: a read result is rejected exactly when it has no comma, or when
    its first comma is its last character or is followed by another
    comma; the rejection is always the empty-result error. *)
Theorem fileToBase64_rejected (result : string) (reason : Thrown) :
  fileToBase64 (Loaded result) = Rejected reason <->
  reason = ErrorObj "Failed to convert file to base64: result was empty." /\
  (afterFirst "," result = None \/
   afterFirst "," result = Some "" \/
   exists tail, afterFirst "," result = Some (String "," tail)).
Proof.
  simpl. rewrite onload_between_commas.
  destruct (afterFirst "," result) as [[|x rest]|] eqn:Hafter; simpl.
  - split; [intros [= <-]; split; [reflexivity | right; left; reflexivity]|].
    now intros [-> _].
  - destruct (Ascii.eqb_spec x ",") as [->|Hx]; simpl.
    + split; [intros [= <-]; split; [reflexivity|]|now intros [-> _]].
      right. right. now exists rest.
    + split; [discriminate|].
      intros [_ [H | [H | [tail H]]]]; try discriminate.
      injection H as -> _. now contradiction Hx.
  - split; [intros [= <-]; split; [reflexivity | left; reflexivity]|].
    now intros [-> _].
Qed.

Lemma fileToBase64_rejected_witness :
  fileToBase64 (Loaded "data:image/png;base64,")
  = Rejected (ErrorObj "Failed to convert file to base64: result was empty.").
Proof.
  apply (proj2 (fileToBase64_rejected "data:image/png;base64," _)).
  split; [reflexivity|]. right. left. reflexivity.
Defined.

(** X3: a file without bytes, read as the platform reads it, is
    rejected with the empty-result error, whatever comma-free media type
    it declares. *)
Theorem fileToBase64_zero_byte_file (file : File) :
  content file = [] ->
  lacks "," (type file) = true ->
  fileToBase64 (Loaded (readAsDataURL file))
  = Rejected (ErrorObj "Failed to convert file to base64: result was empty.").
Proof.
  intros Hempty Hty. unfold readAsDataURL, fileToBase64. rewrite Hempty.
  change (Base64.encode []) with "".
  assert (H : afterFirst "," ("data:" ++ type file ++ ";base64," ++ "") = Some "").
  { exact (proj2 (base64_uri_parts (type file) "" Hty)). }
  now rewrite (onload_payload _ "" H eq_refl).
Qed.

Lemma fileToBase64_zero_byte_file_witness :
  content (mkFile "empty.png" "image/png" []) = [] /\
  lacks "," (type (mkFile "empty.png" "image/png" [])) = true /\
  fileToBase64 (Loaded (readAsDataURL (mkFile "empty.png" "image/png" [])))
  = Rejected (ErrorObj "Failed to convert file to base64: result was empty.").
Proof.
  split; [reflexivity|]. split; [reflexivity|].
  apply (fileToBase64_zero_byte_file (mkFile "empty.png" "image/png" []));
    reflexivity.
Defined.

(** ** More on the edit client *)

(** What the loop returns was built from a part with inline data that no
    such part precedes. *)
Lemma scanParts_some (ps : list Part) (uri : string) :
  scanParts ps = Some uri ->
  exists before part d after,
    ps = (before ++ part :: after)%list /\
    Forall (fun q => inlineData q = None) before /\
    inlineData part = Some d /\
    uri = "data:" ++ mimeType d ++ ";base64," ++ data d.
Proof.
  induction ps as [|p ps IH]; simpl; [discriminate|].
  destruct (inlineData p) as [d|] eqn:E.
  - intros [= <-]. exists [], p, d, ps.
    split; [reflexivity|]. split; [constructor|]. split; [exact E | reflexivity].
  - intros H. destruct (IH H) as (before & part & d & after & -> & Hb & Hd & ->).
    exists (p :: before), part, d, after.
    split; [reflexivity|]. split; [now constructor|]. split; [exact Hd | reflexivity].
Qed.

(** The three shapes of what the [catch] block throws. *)
Lemma catchBlock_shape (error : Thrown) :
  exists msg,
    catchBlock error = ErrorObj msg /\
    (msg = invalidKeyMessage \/ msg = unknownErrorMessage \/
     exists original, error = ErrorObj original /\ msg = failedPrefix ++ original).
Proof.
  destruct error as [original | printed]; simpl.
  - destruct (includes "API key not valid" original).
    + exists invalidKeyMessage. split; [reflexivity | now left].
    + exists (failedPrefix ++ original). split; [reflexivity|].
      right. right. now exists original.
  - exists unknownErrorMessage. split; [reflexivity | right; now left].
Qed.

Section EditClientMore.

Variable typeErrorMessage : Fault -> string.
Variable generateContent : Request -> Promise Response.

Local Abbreviation edit := (editImageWithPrompt typeErrorMessage generateContent).

(** The call resolves only through the [return] of the loop. *)
Lemma edit_resolved_inv (base64ImageData mimeType0 prompt uri : string) :
  edit base64ImageData mimeType0 prompt = Resolved uri ->
  exists response ps,
    generateContent (editRequest base64ImageData mimeType0 prompt) = Resolved response /\
    responseParts response = inl ps /\
    scanParts ps = Some uri.
Proof.
  unfold editImageWithPrompt.
  destruct (generateContent (editRequest base64ImageData mimeType0 prompt))
    as [response | thrown]; simpl; [|discriminate].
  unfold readResponse.
  destruct (responseParts response) as [ps | fault] eqn:Hparts; [|discriminate].
  destruct (scanParts ps) as [uri'|] eqn:E; [|discriminate].
  intros [= <-]. now exists response, ps.
Qed.

(** The call rejects only with what the [catch] block throws. *)
Lemma edit_rejected_inv (base64ImageData mimeType0 prompt : string) (reason : Thrown) :
  edit base64ImageData mimeType0 prompt = Rejected reason ->
  exists error, reason = catchBlock error.
Proof.
  unfold editImageWithPrompt.
  destruct (_ <- generateContent _ ;; readResponse typeErrorMessage _) as [uri | error];
    [discriminate|].
  intros [= <-]. now exists error.
Qed.

(** X4: the call resolves only when the remote call resolved with a
    response whose first candidate has parts, and then only with the URI
    built from the media type and the data of the first part that has
    inline data. *)
Theorem editImageWithPrompt_resolved
  (base64ImageData mimeType0 prompt uri : string) :
  edit base64ImageData mimeType0 prompt = Resolved uri ->
  exists response before part d after,
    generateContent (editRequest base64ImageData mimeType0 prompt) = Resolved response /\
    responseParts response = inl (before ++ part :: after)%list /\
    Forall (fun q => inlineData q = None) before /\
    inlineData part = Some d /\
    uri = "data:" ++ mimeType d ++ ";base64," ++ data d.
Proof.
  intros H. destruct (edit_resolved_inv _ _ _ _ H) as (response & ps & Hcall & Hparts & Hscan).
  destruct (scanParts_some ps uri Hscan) as (before & part & d & after & -> & Hb & Hd & ->).
  now exists response, before, part, d, after.
Qed.

(** With a client that was built, a rejection is an [Error] thrown by
    the [catch] block: the invalid-key text, the unknown-error text, or
    an original message behind ["Failed to edit image: "], and never the
    bare no-image text. *)
Lemma edit_rejected_shape
  (base64ImageData mimeType0 prompt : string) (reason : Thrown) :
  edit base64ImageData mimeType0 prompt = Rejected reason ->
  exists msg,
    reason = ErrorObj msg /\
    (msg = "The provided API key is not valid. Please check your configuration." \/
     msg = "An unknown error occurred while communicating with the AI model." \/
     exists original, msg = "Failed to edit image: " ++ original) /\
    msg <> "No image data was found in the API response.".
Proof.
  intros H. destruct (edit_rejected_inv _ _ _ _ H) as (error & ->).
  destruct (catchBlock_shape error) as (msg & -> & Hshape).
  exists msg. split; [reflexivity|].
  destruct Hshape as [-> | [-> | (original & _ & ->)]].
  - split; [now left | discriminate].
  - split; [right; now left | discriminate].
  - split; [right; right; now exists original | discriminate].
Qed.

(** X6: only the first candidate of the response is looked at: two
    services whose responses agree on it give the same outcome. *)
Theorem editImageWithPrompt_first_candidate_only
  (otherService : Request -> Promise Response)
  (base64ImageData mimeType0 prompt : string)
  (first : Candidate) (rest rest' : list Candidate) :
  generateContent (editRequest base64ImageData mimeType0 prompt)
    = Resolved {| candidates := Some (first :: rest) |} ->
  otherService (editRequest base64ImageData mimeType0 prompt)
    = Resolved {| candidates := Some (first :: rest') |} ->
  edit base64ImageData mimeType0 prompt
  = editImageWithPrompt typeErrorMessage otherService base64ImageData mimeType0 prompt.
Proof.
  intros H H'. unfold editImageWithPrompt. rewrite H, H'. reflexivity.
Qed.

End EditClientMore.

(** X5: the whole call rejects in one of two ways.  When the constructor
    of the client throws, with the very value it throws, not rewritten
    (line 11 stands before the [try] block); otherwise with an [Error]
    thrown by the [catch] block, whose message is the invalid-key text,
    the unknown-error text, or an original message behind
    ["Failed to edit image: "], and never the bare no-image text. *)
Theorem editImageWithPromptCall_rejected
  (construct : option Thrown) (typeErrorMessage : Fault -> string)
  (generateContent : Request -> Promise Response)
  (base64ImageData mimeType0 prompt : string) (reason : Thrown) :
  editImageWithPromptCall construct typeErrorMessage generateContent
    base64ImageData mimeType0 prompt = Rejected reason ->
  construct = Some reason \/
  (construct = None /\
   exists msg,
     reason = ErrorObj msg /\
     (msg = "The provided API key is not valid. Please check your configuration." \/
      msg = "An unknown error occurred while communicating with the AI model." \/
      exists original, msg = "Failed to edit image: " ++ original) /\
     msg <> "No image data was found in the API response.").
Proof.
  unfold editImageWithPromptCall. destruct construct as [thrown|].
  - intros [= ->]. now left.
  - intros H. right. split; [reflexivity|].
    exact (edit_rejected_shape typeErrorMessage generateContent _ _ _ _ H).
Qed.

(** A constructor that throws decides the outcome alone: the service is
    not asked and the thrown value arrives as it is. *)
Lemma editImageWithPromptCall_constructor_throws
  (thrown : Thrown) (typeErrorMessage : Fault -> string)
  (generateContent : Request -> Promise Response)
  (base64ImageData mimeType0 prompt : string) :
  editImageWithPromptCall (Some thrown) typeErrorMessage generateContent
    base64ImageData mimeType0 prompt = Rejected thrown.
Proof. reflexivity. Qed.

(** X7: the request determines the three arguments: two calls send the
    same request only for the same image data, media type and
    instruction. *)
Theorem editRequest_injective (b m p b' m' p' : string) :
  editRequest b m p = editRequest b' m' p' -> b = b' /\ m = m' /\ p = p'.
Proof.
  unfold editRequest, enhancedPrompt. intros H.
  injection H as Hb Hm Hp.
  split; [exact Hb|]. split; [exact Hm|].
  now apply append_tail_inj in Hp.
Qed.

(** ** More on submission *)

Lemma dataURI_scanParts (ps : list Part) (uri : string) :
  scanParts ps = Some uri -> dataURI uri.
Proof.
  intros H. destruct (scanParts_some ps uri H) as (_ & _ & d & _ & _ & _ & _ & ->).
  now exists (mimeType d), (data d).
Qed.

Section SubmitMore.

Variable typeErrorMessage : Fault -> string.
Variable generateContent : Request -> Promise Response.
Variable read : File -> ReadOutcome.

Local Abbreviation submit := (handleSubmit typeErrorMessage generateContent read).
Local Abbreviation run := (pipeline typeErrorMessage generateContent read).

(** What the awaited work resolves with is a data URI. *)
Lemma pipeline_resolved_dataURI (file : File) (prompt uri : string) :
  run file prompt = Resolved uri -> dataURI uri.
Proof.
  unfold pipeline. destruct (fileToBase64 (read file)) as [b|e]; simpl; [|discriminate].
  intros H. destruct (edit_resolved_inv _ _ _ _ _ _ H) as (_ & ps & _ & _ & Hscan).
  exact (dataURI_scanParts ps uri Hscan).
Qed.

(** What the awaited work rejects with is an [Error], and its message is
    neither of the two messages that only [handleSubmit] itself has. *)
Lemma pipeline_rejected_message (file : File) (prompt : string) (err : Thrown) :
  run file prompt = Rejected err ->
  exists msg,
    err = ErrorObj msg /\ msg <> uploadFirstMessage /\ msg <> unexpectedErrorMessage.
Proof.
  unfold pipeline. destruct (read file) as [result | ev]; simpl.
  - rewrite onload_between_commas.
    destruct (afterFirst "," result) as [rest|].
    + destruct (truthy (beforeFirst "," rest)); simpl.
      * intros H. destruct (edit_rejected_inv _ _ _ _ _ _ H) as (error & ->).
        destruct (catchBlock_shape error) as (msg & -> & [-> | [-> | (o & _ & ->)]]);
          eexists; (split; [reflexivity|]); split; discriminate.
      * intros [= <-]. eexists. split; [reflexivity|]. split; discriminate.
    + intros [= <-]. eexists. split; [reflexivity|]. split; discriminate.
  - intros [= <-]. eexists. split; [reflexivity|]. split; discriminate.
Qed.

(** Every completion a submission leaves to be awaited is well formed. *)
Lemma handleSubmit_completion (s : SessionState) (us : list Update) :
  settled (submit s) = Some us -> completion us.
Proof.
  unfold handleSubmit.
  destruct (originalImageFile s) as [file|]; [|discriminate].
  destruct (negb (truthy (trim (prompt s)))); [discriminate|].
  simpl. intros [= <-].
  destruct (run file (prompt s)) as [uri | err] eqn:E.
  - left. exists uri. split; [exact (pipeline_resolved_dataURI _ _ _ E) | reflexivity].
  - right. destruct (pipeline_rejected_message _ _ _ E) as (msg & -> & H1 & H2).
    exists msg. now repeat split.
Qed.

(** X8: a submission that passes validation calls the encoder once, on
    the selected file.  When the encoder rejects, the edit client is not
    called and the encoder's own message is what will be shown; when it
    resolves, the edit client is called once, with the encoded data, the
    file's declared type and the instruction as typed (not trimmed). *)
Theorem handleSubmit_calls (s : SessionState) (file : File) :
  originalImageFile s = Some file ->
  blank (prompt s) = false ->
  (forall msg,
      fileToBase64 (read file) = Rejected (ErrorObj msg) ->
      invoked (submit s) = [FileToBase64 file] /\
      settled (submit s) = Some [SetError (Some msg); SetIsLoading false]) /\
  (forall base64Data,
      fileToBase64 (read file) = Resolved base64Data ->
      invoked (submit s)
      = [FileToBase64 file; EditImageWithPrompt base64Data (type file) (prompt s)]).
Proof.
  intros Hfile Hprompt.
  destruct (handleSubmit_accepted typeErrorMessage generateContent read s file Hfile Hprompt)
    as [_ Hsettled].
  split.
  - intros msg Henc. split.
    + unfold handleSubmit. rewrite Hfile, trim_blank, Hprompt. simpl. now rewrite Henc.
    + rewrite Hsettled. unfold pipeline. now rewrite Henc.
  - intros b Henc. unfold handleSubmit.
    rewrite Hfile, trim_blank, Hprompt. simpl. now rewrite Henc.
Qed.

(** X9: a submission that passes validation and whose awaited work
    resolves ends, when nothing else happened in between, in the state it
    was triggered in with the result stored, no error and the flag
    cleared. *)
Theorem handleSubmit_success (s : SessionState) (file : File) (result : string) :
  originalImageFile s = Some file ->
  blank (prompt s) = false ->
  run file (prompt s) = Resolved result ->
  exists us,
    settled (submit s) = Some us /\
    commit us (commit (started (submit s)) s)
    = {| originalImageFile := originalImageFile s;
         originalImagePreview := originalImagePreview s;
         editedImage := Some result;
         prompt := prompt s;
         isLoading := false;
         error := None |}.
Proof.
  intros Hfile Hprompt Hrun.
  destruct (handleSubmit_accepted typeErrorMessage generateContent read s file Hfile Hprompt)
    as [Hstart Hsettle].
  rewrite Hrun in Hsettle. rewrite Hstart, Hsettle.
  eexists. split; reflexivity.
Qed.

(** X10: selecting another file while a submission is awaited does not
    cancel it: when the awaited work resolves afterwards, its result, made
    from the earlier file, is stored beside the newly selected file. *)
Theorem handleSubmit_stale_result
  (s : SessionState) (file newFile : File) (objectURL result : string) :
  originalImageFile s = Some file ->
  blank (prompt s) = false ->
  run file (prompt s) = Resolved result ->
  exists us,
    settled (submit s) = Some us /\
    commit us
      (commit (updates (handleImageChange (Some newFile) objectURL
                          (commit (started (submit s)) s)))
              (commit (started (submit s)) s))
    = {| originalImageFile := Some newFile;
         originalImagePreview := Some objectURL;
         editedImage := Some result;
         prompt := prompt s;
         isLoading := false;
         error := None |}.
Proof.
  intros Hfile Hprompt Hrun.
  destruct (handleSubmit_accepted typeErrorMessage generateContent read s file Hfile Hprompt)
    as [Hstart Hsettle].
  rewrite Hrun in Hsettle. rewrite Hstart, Hsettle.
  eexists. split; reflexivity.
Qed.

End SubmitMore.


(** ** More on the session as a whole *)

Lemma awaiting_blank (tem : Fault -> string) (gc : Request -> Promise Response)
  (read : File -> ReadOutcome) (s : SessionState) (file : File) :
  originalImageFile s = Some file ->
  blank (prompt s) = true ->
  awaiting (handleSubmit tem gc read s) = [] /\
  started (handleSubmit tem gc read s) = [SetError (Some enterPromptMessage)].
Proof.
  intros Hfile Hblank.
  now rewrite (handleSubmit_blank_prompt tem gc read s file Hfile Hblank).
Qed.

Lemma awaiting_accepted (tem : Fault -> string) (gc : Request -> Promise Response)
  (read : File -> ReadOutcome) (s : SessionState) (file : File) :
  originalImageFile s = Some file ->
  blank (prompt s) = false ->
  exists us,
    awaiting (handleSubmit tem gc read s) = [us] /\ completion us /\
    started (handleSubmit tem gc read s)
    = [SetIsLoading true; SetError None; SetEditedImage None].
Proof.
  intros Hfile Hblank.
  destruct (handleSubmit_accepted tem gc read s file Hfile Hblank) as [Hstart Hsettle].
  unfold awaiting. rewrite Hsettle. eexists. split; [reflexivity|]. split; [|exact Hstart].
  apply (handleSubmit_completion tem gc read s). exact Hsettle.
Qed.

Ltac close_invariant :=
  repeat split;
  try assumption; try discriminate; try lia; try congruence;
  try (constructor; [assumption | constructor]);
  try (now constructor).

Lemma sessionInvariant_step (c c' : Config) :
  sessionInvariant c -> step c c' -> sessionInvariant c'.
Proof.
  intros Inv Hstep.
  destruct Hstep as [s q file objectURL | s q v Hguard
                    | s q tem gc read Hguard r | s q1 us q2 | s q];
    unfold sessionInvariant in *; simpl fst in *; simpl snd in *;
    destruct Inv as (I1 & I2 & I3 & I4 & I5 & I6 & I7 & I8).
  - destruct s as [f pv ed pr ld er]; simpl in *.
    close_invariant; apply I2.
  - destruct s as [f pv ed pr ld er]; simpl in *.
    close_invariant; try apply I2; try apply I3.
  - destruct (submitDisabled_false s Hguard) as [Hidle [file Hfile]].
    assert (Hq : q = []).
    { destruct q as [|u q]; [reflexivity|].
      assert (isLoading s = true) by (apply I2; discriminate). congruence. }
    subst q. simpl app.
    destruct (blank (prompt s)) eqn:Hblank.
    + destruct (awaiting_blank tem gc read s file Hfile Hblank) as [Ha Hs].
      subst r. rewrite Ha, Hs.
      destruct s as [f pv ed pr ld er]; simpl in *.
      close_invariant; try apply I2; try apply I3.
    + destruct (awaiting_accepted tem gc read s file Hfile Hblank) as (us & Ha & Hc & Hs).
      subst r. rewrite Ha, Hs.
      destruct s as [f pv ed pr ld er]; simpl in *.
      close_invariant; try apply I3.
  - assert (Hq : q1 = [] /\ q2 = []).
    { rewrite length_app in I1. simpl in I1.
      destruct q1; [destruct q2; [now split | simpl in I1; lia] | simpl in I1; lia]. }
    destruct Hq as [-> ->]. simpl app in *.
    assert (Hfile : originalImageFile s <> None) by (apply I4; left; discriminate).
    inversion I8 as [|? ? Hus _]; subst.
    destruct s as [f pv ed pr ld er]; simpl in *.
    destruct Hus as [(uri & Huri & ->) | (msg & H1 & H2 & ->)]; simpl.
    + close_invariant; try apply I3.
    + close_invariant; try apply I3.
  - rewrite handleDownload_no_update. simpl commit.
    close_invariant; try apply I2; try apply I3.
Qed.

Lemma sessionInvariant_reachable (c : Config) : reachable c -> sessionInvariant c.
Proof.
  induction 1 as [|c c' _ IH Hstep].
  - unfold sessionInvariant. simpl.
    repeat split; try discriminate; try congruence; try (now constructor); try lia.
    intros [C | [C | C]]; now contradiction C.
  - exact (sessionInvariant_step c c' IH Hstep).
Qed.

(** X12: at most one submission is awaited at any time, and the
    in-flight flag is set exactly while one is. *)
Theorem one_request_in_flight (c : Config) :
  reachable c ->
  List.length (snd c) <= 1 /\ (isLoading (fst c) = true <-> snd c <> []).
Proof.
  intros H. destruct (sessionInvariant_reachable c H) as (I1 & I2 & _).
  split; [exact I1 | exact I2].
Qed.

(** X13: a file and its preview are stored together and never taken
    away again: a session that awaits a submission, shows a result or
    shows an error has a file selected. *)
Theorem file_present (c : Config) :
  reachable c ->
  (originalImageFile (fst c) = None <-> originalImagePreview (fst c) = None) /\
  (snd c <> [] \/ editedImage (fst c) <> None \/ error (fst c) <> None ->
   originalImageFile (fst c) <> None).
Proof.
  intros H. destruct (sessionInvariant_reachable c H) as (_ & _ & I3 & I4 & _).
  split; [exact I3 | exact I4].
Qed.

(** X14: every result the session ever stores is a URI of the form
    [data:<mediaType>;base64,<payload>], so that the download action on it
    always saves a file, named after [downloadExtension]. *)
Theorem stored_result_is_data_uri (c : Config) (uri : string) :
  reachable c ->
  editedImage (fst c) = Some uri ->
  (exists mediaType payload, uri = "data:" ++ mediaType ++ ";base64," ++ payload) /\
  effects (handleDownload (fst c))
  = [ClickDownloadLink uri ("alchemized-image." ++ downloadExtension uri)].
Proof.
  intros H Hresult.
  destruct (sessionInvariant_reachable c H) as (_ & _ & _ & _ & I5 & _).
  destruct (I5 uri Hresult) as (mediaType & payload & ->).
  split; [now exists mediaType, payload|].
  unfold handleDownload. rewrite Hresult. reflexivity.
Qed.

(** X16: while a submission is awaited the Edited card shows the spinner
    and nothing else, no error is shown, and the submit button is
    disabled. *)
Theorem awaiting_view (c : Config) :
  reachable c ->
  snd c <> [] ->
  editedCard (fst c) = [SpinnerIcon] /\
  errorAlert (fst c) = None /\
  submitDisabled (fst c) = true.
Proof.
  intros H Hq.
  destruct (sessionInvariant_reachable c H) as (_ & I2 & _).
  destruct (loadingInvariant_reachable c H) as [Hclear _].
  apply I2 in Hq. destruct (Hclear Hq) as [Hed Herr].
  unfold editedCard, ImageCard, errorAlert, submitDisabled, present. simpl.
  rewrite Hq, Hed, Herr. repeat split.
Qed.

Lemma one_request_in_flight_witness :
  reachable (sampleInFlight, awaiting firstSubmission) /\
  List.length (snd (sampleInFlight, awaiting firstSubmission)) <= 1 /\
  (isLoading (fst (sampleInFlight, awaiting firstSubmission)) = true <->
   snd (sampleInFlight, awaiting firstSubmission) <> []).
Proof.
  split; [exact sampleInFlight_reachable|].
  exact (one_request_in_flight _ sampleInFlight_reachable).
Defined.

Lemma file_present_witness :
  reachable (sampleWithResult, []) /\
  editedImage (fst (sampleWithResult, @nil (list Update))) <> None /\
  originalImageFile (fst (sampleWithResult, @nil (list Update))) <> None.
Proof.
  split; [exact sampleWithResult_reachable|]. split; [discriminate|].
  apply (proj2 (file_present _ sampleWithResult_reachable)).
  right. left. discriminate.
Defined.

Lemma stored_result_is_data_uri_witness :
  reachable (sampleWithResult, []) /\
  editedImage (fst (sampleWithResult, @nil (list Update)))
    = Some "data:image/png;base64,AAAA" /\
  effects (handleDownload (fst (sampleWithResult, @nil (list Update))))
  = [ClickDownloadLink "data:image/png;base64,AAAA"
       ("alchemized-image." ++ downloadExtension "data:image/png;base64,AAAA")].
Proof.
  split; [exact sampleWithResult_reachable|]. split; [reflexivity|].
  exact (proj2 (stored_result_is_data_uri _ "data:image/png;base64,AAAA"
                  sampleWithResult_reachable eq_refl)).
Defined.

Lemma awaiting_view_witness :
  reachable (sampleInFlight, awaiting firstSubmission) /\
  snd (sampleInFlight, awaiting firstSubmission) <> [] /\
  editedCard sampleInFlight = [SpinnerIcon] /\
  errorAlert sampleInFlight = None /\
  submitDisabled sampleInFlight = true.
Proof.
  split; [exact sampleInFlight_reachable|]. split; [discriminate|].
  apply (awaiting_view (sampleInFlight, awaiting firstSubmission)
           sampleInFlight_reachable).
  discriminate.
Defined.

(** ** Preview URLs *)

Lemma revokedURLs_app (a b : list Effect) :
  revokedURLs (a ++ b) = (revokedURLs a ++ revokedURLs b)%list.
Proof. apply flat_map_app. Qed.

Lemma revokedURLs_cleanup (preview : option string) (url : string) :
  In url (revokedURLs (previewCleanup preview)) <-> preview = Some url /\ truthy url = true.
Proof.
  unfold previewCleanup. destruct preview as [old|]; simpl.
  - destruct (truthy old) eqn:T; simpl.
    + split; [intros [<- | []]; now split | intros [[= <-] _]; now left].
    + split; [intros [] | intros [[= <-] C]; congruence].
  - split; [intros [] | intros [C _]; discriminate].
Qed.

(** One pick: what is called, and the preview afterwards. *)
Lemma selectFiles_cons (file : File) (objectURL : string)
  (rest : list (File * string)) (s : SessionState) :
  exists s',
    originalImagePreview s' = Some objectURL /\
    selectFiles ((file, objectURL) :: rest) s
    = (fst (selectFiles rest s'),
       (previewCleanup (originalImagePreview s) ++ [CreateObjectURL file]
        ++ renderCleanup s s' ++ snd (selectFiles rest s'))%list).
Proof.
  exists (commit (updates (handleImageChange (Some file) objectURL s)) s).
  split; [reflexivity|].
  cbn [selectFiles].
  destruct (selectFiles rest _) as [final log]. simpl fst. simpl snd.
  unfold handleImageChange, previewCleanup. simpl effects.
  now rewrite <- app_assoc.
Qed.

Lemma revokedURLs_renderCleanup (s s' : SessionState) (url : string) :
  In url (revokedURLs (renderCleanup s s')) ->
  originalImagePreview s = Some url /\ truthy url = true.
Proof.
  unfold renderCleanup. destruct (samePreview _ _); [intros []|].
  apply revokedURLs_cleanup.
Qed.

(** X17: over a run of file selections every object URL that is replaced
    gets revoked, and removing the component revokes the last one: with
    the cleanup at the end no URL that was handed out stays behind. *)
Theorem selectFiles_releases_all
  (picks : list (File * string)) (s : SessionState) (url : string) :
  Forall (fun pick => truthy (snd pick) = true) picks ->
  In url (map snd picks) \/ (originalImagePreview s = Some url /\ truthy url = true) ->
  In url (revokedURLs (snd (selectFiles picks s) ++ unmount (fst (selectFiles picks s)))).
Proof.
  revert s. induction picks as [|[file objectURL] rest IH]; intros s Htruthy Hurl.
  - simpl. destruct Hurl as [[] | Hurl]. now apply revokedURLs_cleanup.
  - inversion Htruthy as [|? ? Hfirst Hrest]; subst. simpl in Hfirst.
    destruct (selectFiles_cons file objectURL rest s) as (s' & Hpreview & ->).
    cbn [fst snd].
    assert (E : forall a b d e f : list Effect,
               ((a ++ b ++ d ++ e) ++ f = a ++ (b ++ d) ++ (e ++ f))%list).
    { intros. now rewrite <- !app_assoc. }
    rewrite E, (revokedURLs_app (previewCleanup _)), (revokedURLs_app (_ ++ _)).
    apply in_or_app.
    destruct Hurl as [[Efirst | Hin] | Hold].
    + right. apply in_or_app. right. simpl in Efirst.
      apply IH; [exact Hrest | right; split; congruence].
    + right. apply in_or_app. right. apply IH; [exact Hrest | now left].
    + left. now apply revokedURLs_cleanup.
Qed.

(** What a run of selections revokes was the preview at the start or the
    URL of a pick other than the last. *)
Lemma selectFiles_revoked (front : list (File * string)) (file : File)
  (objectURL : string) (s : SessionState) (url : string) :
  In url (revokedURLs (snd (selectFiles (front ++ [(file, objectURL)]) s))) ->
  originalImagePreview s = Some url \/ In url (map snd front).
Proof.
  revert s. induction front as [|[f1 u1] front IH]; intros s.
  - cbn [app]. destruct (selectFiles_cons file objectURL [] s) as (s' & _ & ->).
    cbn [fst snd selectFiles]. rewrite !revokedURLs_app.
    intros H. apply in_app_or in H as [H | H].
    + left. now apply revokedURLs_cleanup in H.
    + apply in_app_or in H as [[] | H]. apply in_app_or in H as [H | []].
      left. now apply revokedURLs_renderCleanup in H.
  - cbn [app]. destruct (selectFiles_cons f1 u1 (front ++ [(file, objectURL)]) s)
      as (s' & Hpreview & ->).
    cbn [fst snd]. rewrite !revokedURLs_app.
    intros H. apply in_app_or in H as [H | H].
    + left. now apply revokedURLs_cleanup in H.
    + apply in_app_or in H as [[] | H]. apply in_app_or in H as [H | H].
      * left. now apply revokedURLs_renderCleanup in H.
      * right. destruct (IH s' H) as [E | Hin]; [left | now right].
        rewrite Hpreview in E. now injection E.
Qed.

Lemma selectFiles_last (front : list (File * string)) (file : File)
  (objectURL : string) (s : SessionState) :
  originalImagePreview (fst (selectFiles (front ++ [(file, objectURL)]) s))
  = Some objectURL /\
  originalImageFile (fst (selectFiles (front ++ [(file, objectURL)]) s))
  = Some file.
Proof.
  revert s. induction front as [|[f1 u1] front IH]; intros s.
  - simpl. split; reflexivity.
  - simpl app. cbn [selectFiles].
    destruct (selectFiles (front ++ [(file, objectURL)]) _) as [final log] eqn:E.
    simpl fst. specialize (IH (commit (updates (handleImageChange (Some f1) u1 s)) s)).
    rewrite E in IH. exact IH.
Qed.

(** X18: the object URL of the file that is shown is not revoked while
    it is shown: after a run of selections the preview is the URL of the
    last pick, and, when the browser never hands out a URL twice, nothing
    that was called on the way revoked it. *)
Theorem selectFiles_keeps_current
  (front : list (File * string)) (file : File) (objectURL : string)
  (s : SessionState) :
  ~ In objectURL (map snd front) ->
  originalImagePreview s <> Some objectURL ->
  originalImagePreview (fst (selectFiles (front ++ [(file, objectURL)]) s))
  = Some objectURL /\
  originalImageFile (fst (selectFiles (front ++ [(file, objectURL)]) s))
  = Some file /\
  ~ In objectURL (revokedURLs (snd (selectFiles (front ++ [(file, objectURL)]) s))).
Proof.
  intros Hfresh Hstart.
  destruct (selectFiles_last front file objectURL s) as [Hp Hf].
  split; [exact Hp|]. split; [exact Hf|].
  intros H. destruct (selectFiles_revoked _ _ _ _ _ H) as [E | Hin];
    [now apply Hstart | now apply Hfresh].
Qed.

(** ** More on the download action and the cards *)

Lemma orDefault_truthy (x : option string) (d : string) :
  truthy d = true -> truthy (orDefault x d) = true.
Proof.
  intros H. unfold orDefault. destruct x as [s|]; [|exact H].
  destruct (truthy s) eqn:T; [exact T | exact H].
Qed.

Lemma orDefault_lacks (c : ascii) (x : option string) (d : string) :
  (forall s, x = Some s -> lacks c s = true) ->
  lacks c d = true ->
  lacks c (orDefault x d) = true.
Proof.
  intros Hx Hd. unfold orDefault. destruct x as [s|]; [|exact Hd].
  destruct (truthy s); [now apply Hx | exact Hd].
Qed.

Lemma at_1_lacks (c d : ascii) (s t : string) :
  at_index (split c s) 1 = Some t ->
  lacks c t = true /\ (lacks d s = true -> lacks d t = true).
Proof.
  rewrite split_at_1. destruct (afterFirst c s) as [rest|] eqn:E; [|discriminate].
  simpl. intros [= <-]. split; [apply lacks_beforeFirst|].
  intros H. apply lacks_beforeFirst_other. exact (lacks_afterFirst c d s rest E H).
Qed.

(** X19: whatever the result URI is, the extension of the saved file is
    never empty and holds no [/], no [;] and no [:]. *)
Theorem downloadExtension_safe (uri : string) :
  downloadExtension uri <> "" /\
  lacks "/" (downloadExtension uri) = true /\
  lacks ";" (downloadExtension uri) = true /\
  lacks ":" (downloadExtension uri) = true.
Proof.
  unfold downloadExtension.
  set (segment := match at_index (split ";" uri) 0 with
                  | Some head => at_index (split ":" head) 1
                  | None => None
                  end).
  set (media := orDefault segment "image/png").
  assert (Hsemi : lacks ";" media = true).
  { apply orDefault_lacks; [|reflexivity]. intros t. unfold segment.
    rewrite split_at_0. intros H.
    apply (proj2 (at_1_lacks ":" ";" _ _ H)). apply lacks_beforeFirst. }
  assert (Hcolon : lacks ":" media = true).
  { apply orDefault_lacks; [|reflexivity]. intros t. unfold segment.
    rewrite split_at_0. intros H. exact (proj1 (at_1_lacks ":" ":" _ _ H)). }
  split.
  - intros E. pose proof (orDefault_truthy (at_index (split "/" media) 1) "png" eq_refl) as T.
    rewrite E in T. discriminate.
  - split; [|split]; (apply orDefault_lacks; [|reflexivity]); intros t H.
    + exact (proj1 (at_1_lacks "/" "/" _ _ H)).
    + exact (proj2 (at_1_lacks "/" ";" _ _ H) Hsemi).
    + exact (proj2 (at_1_lacks "/" ":" _ _ H) Hcolon).
Qed.

(** X20: whenever the Edited card shows its download button, the card is
    not loading, it shows the stored result as image, and the button's
    handler saves exactly that result: a visible button is never without
    effect. *)
Theorem download_button_works (s : SessionState) :
  In DownloadButton (editedCard s) ->
  isLoading s = false /\
  exists uri,
    editedImage s = Some uri /\
    editedCard s = [Image uri; DownloadButton] /\
    effects (handleDownload s)
    = [ClickDownloadLink uri ("alchemized-image." ++ downloadExtension uri)].
Proof.
  unfold editedCard, ImageCard, handleDownload, present. simpl.
  destruct (isLoading s); simpl.
  - destruct (editedImage s); simpl; intros [C | []]; discriminate.
  - destruct (editedImage s) as [uri|]; simpl.
    + destruct (truthy uri); simpl.
      * intros _. split; [reflexivity|]. now exists uri.
      * intros [C | []]. discriminate.
    + intros [C | []]. discriminate.
Qed.

Lemma download_button_works_witness :
  In DownloadButton (editedCard sampleWithResult) /\
  isLoading sampleWithResult = false /\
  exists uri,
    editedImage sampleWithResult = Some uri /\
    editedCard sampleWithResult = [Image uri; DownloadButton] /\
    effects (handleDownload sampleWithResult)
    = [ClickDownloadLink uri ("alchemized-image." ++ downloadExtension uri)].
Proof.
  assert (H : In DownloadButton (editedCard sampleWithResult)).
  { right. left. reflexivity. }
  split; [exact H|]. exact (download_button_works sampleWithResult H).
Defined.

(** X21: a card shows exactly one of spinner, image and placeholder: the
    spinner when loading, else the image when there is a non-empty URL,
    else the placeholder; the download button comes only with the image
    and only when a handler was given. *)
Theorem ImageCard_exclusive (props : ImageCardProps) :
  (cardIsLoading props = true /\ ImageCard props = [SpinnerIcon]) \/
  (cardIsLoading props = false /\
   exists url,
     imageUrl props = Some url /\ url <> "" /\
     ImageCard props = (Image url :: if onDownload props then [DownloadButton] else [])) \/
  (cardIsLoading props = false /\ present (imageUrl props) = false /\
   exists text, ImageCard props = [PlaceholderText text]).
Proof.
  destruct props as [t url loading handler]. unfold ImageCard, present. simpl.
  destruct loading; simpl.
  - left. split; [reflexivity|]. now destruct url.
  - right. destruct url as [[|a u]|]; simpl.
    + right. repeat split. eexists. reflexivity.
    + left. split; [reflexivity|]. exists (String a u).
      split; [reflexivity|]. split; [discriminate|]. now destruct handler.
    + right. repeat split. eexists. reflexivity.
Qed.

(** ** The further properties on the sample values *)

Lemma editImageWithPrompt_resolved_witness :
  editImageWithPrompt sampleTypeErrorMessage goodService "QUJD" "image/png" "add a glow"
    = Resolved "data:image/png;base64,AAAA" /\
  exists response before part d after,
    goodService (editRequest "QUJD" "image/png" "add a glow") = Resolved response /\
    responseParts response = inl (before ++ part :: after)%list /\
    Forall (fun q => inlineData q = None) before /\
    inlineData part = Some d /\
    "data:image/png;base64,AAAA" = "data:" ++ mimeType d ++ ";base64," ++ data d.
Proof.
  split; [reflexivity|].
  exact (editImageWithPrompt_resolved sampleTypeErrorMessage goodService
           "QUJD" "image/png" "add a glow" "data:image/png;base64,AAAA" eq_refl).
Defined.

Lemma editImageWithPromptCall_rejected_witness :
  editImageWithPromptCall (Some missingKey) sampleTypeErrorMessage goodService
    "QUJD" "image/png" "add a glow" = Rejected missingKey /\
  (Some missingKey = Some missingKey \/
   (Some missingKey = None /\
    exists msg,
      missingKey = ErrorObj msg /\
      (msg = "The provided API key is not valid. Please check your configuration." \/
       msg = "An unknown error occurred while communicating with the AI model." \/
       exists original, msg = "Failed to edit image: " ++ original) /\
      msg <> "No image data was found in the API response.")).
Proof.
  split; [reflexivity|].
  exact (editImageWithPromptCall_rejected (Some missingKey) sampleTypeErrorMessage
           goodService "QUJD" "image/png" "add a glow" missingKey eq_refl).
Defined.

Lemma editImageWithPrompt_first_candidate_only_witness :
  answering hiddenImage (editRequest "QUJD" "image/png" "add a glow")
    = Resolved {| candidates :=
         Some ({| candidateContent := Some {| parts := Some textOnly |} |}
               :: [ {| candidateContent :=
                         Some {| parts := Some [imagePart "image/png" "AAAA"] |} |} ]) |} /\
  editImageWithPrompt sampleTypeErrorMessage (answering hiddenImage)
    "QUJD" "image/png" "add a glow"
  = editImageWithPrompt sampleTypeErrorMessage (answering (responseWith textOnly))
      "QUJD" "image/png" "add a glow".
Proof.
  split; [reflexivity|].
  exact (editImageWithPrompt_first_candidate_only sampleTypeErrorMessage
           (answering hiddenImage) (answering (responseWith textOnly))
           "QUJD" "image/png" "add a glow" _ _ [] eq_refl eq_refl).
Defined.

Lemma editRequest_injective_witness :
  editRequest "QUJD" "image/png" "add a glow" = editRequest "QUJD" "image/png" "add a glow" /\
  "add a glow" = "add a glow".
Proof.
  split; [reflexivity|].
  exact (proj2 (proj2 (editRequest_injective "QUJD" "image/png" "add a glow"
                         "QUJD" "image/png" "add a glow" eq_refl))).
Defined.

Lemma handleSubmit_calls_witness :
  originalImageFile samplePrompted = Some sampleFile /\
  blank (prompt samplePrompted) = false /\
  fileToBase64 (platformRead sampleFile) = Resolved "QUJD" /\
  invoked (handleSubmit sampleTypeErrorMessage goodService platformRead samplePrompted)
  = [FileToBase64 sampleFile; EditImageWithPrompt "QUJD" "image/png" "add a glow"].
Proof.
  split; [reflexivity|]. split; [reflexivity|]. split; [reflexivity|].
  exact (proj2 (handleSubmit_calls sampleTypeErrorMessage goodService platformRead
                  samplePrompted sampleFile eq_refl eq_refl) "QUJD" eq_refl).
Defined.

Lemma handleSubmit_success_witness :
  originalImageFile samplePrompted = Some sampleFile /\
  blank (prompt samplePrompted) = false /\
  pipeline sampleTypeErrorMessage goodService platformRead sampleFile
    (prompt samplePrompted) = Resolved "data:image/png;base64,AAAA" /\
  exists us,
    settled firstSubmission = Some us /\
    commit us (commit (started firstSubmission) samplePrompted) = sampleWithResult.
Proof.
  split; [reflexivity|]. split; [reflexivity|]. split; [reflexivity|].
  exact (handleSubmit_success sampleTypeErrorMessage goodService platformRead
           samplePrompted sampleFile "data:image/png;base64,AAAA" eq_refl eq_refl eq_refl).
Defined.

Lemma handleSubmit_stale_result_witness :
  originalImageFile samplePrompted = Some sampleFile /\
  blank (prompt samplePrompted) = false /\
  pipeline sampleTypeErrorMessage goodService platformRead sampleFile
    (prompt samplePrompted) = Resolved "data:image/png;base64,AAAA" /\
  exists us,
    settled firstSubmission = Some us /\
    commit us sampleStale
    = {| originalImageFile := Some otherFile;
         originalImagePreview := Some "blob:2";
         editedImage := Some "data:image/png;base64,AAAA";
         prompt := "add a glow";
         isLoading := false;
         error := None |}.
Proof.
  split; [reflexivity|]. split; [reflexivity|]. split; [reflexivity|].
  exact (handleSubmit_stale_result sampleTypeErrorMessage goodService platformRead
           samplePrompted sampleFile otherFile "blob:2" "data:image/png;base64,AAAA"
           eq_refl eq_refl eq_refl).
Defined.


Lemma selectFiles_releases_all_witness :
  Forall (fun pick => truthy (snd pick) = true) samplePicks /\
  In "blob:1" (map snd samplePicks) /\
  In "blob:1"
    (revokedURLs (snd (selectFiles samplePicks initialState)
                  ++ unmount (fst (selectFiles samplePicks initialState)))).
Proof.
  assert (H : Forall (fun pick => truthy (snd pick) = true) samplePicks).
  { repeat constructor. }
  split; [exact H|]. split; [left; reflexivity|].
  apply (selectFiles_releases_all samplePicks initialState "blob:1" H).
  left. left. reflexivity.
Defined.

Lemma selectFiles_keeps_current_witness :
  ~ In "blob:2" (map snd [(sampleFile, "blob:1")]) /\
  originalImagePreview initialState <> Some "blob:2" /\
  originalImagePreview
    (fst (selectFiles ([(sampleFile, "blob:1")] ++ [(otherFile, "blob:2")]) initialState))
  = Some "blob:2" /\
  ~ In "blob:2"
      (revokedURLs
         (snd (selectFiles ([(sampleFile, "blob:1")] ++ [(otherFile, "blob:2")])
                 initialState))).
Proof.
  assert (H : ~ In "blob:2" (map snd [(sampleFile, "blob:1")])).
  { intros [C | []]. discriminate. }
  split; [exact H|]. split; [discriminate|].
  destruct (selectFiles_keeps_current [(sampleFile, "blob:1")] otherFile "blob:2"
              initialState H) as (Hp & _ & Hr); [discriminate|].
  split; [exact Hp | exact Hr].
Defined.

(** ** The download action on unusual media types *)

(** C8, as stated, fails: a service may declare the media type
    [image/x/y]; the result is stored as it is built, and on it the
    download action takes [x], the text between the first and the second
    slash, which is neither the subtype [x/y] nor [png].  The same
    happens at a colon: for [image/x:y] it takes [x]. *)
Lemma handleDownload_extension_counterexample :
  editImageWithPrompt sampleTypeErrorMessage
    (answering (responseWith [imagePart "image/x/y" "AAAA"]))
    "QUJD" "image/png" "add a glow"
  = Resolved "data:image/x/y;base64,AAAA" /\
  effects (handleDownload sampleTwoSlashes)
  = [ClickDownloadLink "data:image/x/y;base64,AAAA" "alchemized-image.x"] /\
  downloadExtension "data:image/x/y;base64,AAAA" <> "x/y" /\
  downloadExtension "data:image/x/y;base64,AAAA" <> "png" /\
  downloadExtension "data:image/x:y;base64,AAAA" = "x".
Proof. repeat split; discriminate. Qed.

(** ** The session with the client constructor *)

Lemma handleSubmitCall_None (typeErrorMessage : Fault -> string)
  (generateContent : Request -> Promise Response) (read : File -> ReadOutcome)
  (s : SessionState) :
  handleSubmitCall None typeErrorMessage generateContent read s
  = handleSubmit typeErrorMessage generateContent read s.
Proof. reflexivity. Qed.

(** Every run of the session without a constructor failure is a run of
    the session with the constructor, for an SDK whose constructor can
    succeed. *)
Lemma reachable_reachableCall (sdk : option Thrown -> Prop) (c : Config) :
  sdk None -> reachable c -> reachableCall sdk c.
Proof.
  intros Hsdk. induction 1 as [|c c' _ IH Hstep]; [constructor|].
  apply (reachableCall_step sdk c c' IH).
  destruct Hstep as [s q file objectURL | s q v Hguard
                    | s q tem gc read Hguard r | s q1 us q2 | s q].
  - apply stepCall_select.
  - now apply stepCall_prompt.
  - subst r. rewrite <- handleSubmitCall_None. now apply stepCall_submit.
  - apply stepCall_settle.
  - apply stepCall_download.
Qed.

(** What the awaited work rejects with, when the constructor throws
    errors only: an [Error] whose message is neither of the two. *)
Lemma pipelineCall_rejected_message (sdk : option Thrown -> Prop)
  (construct : option Thrown) (typeErrorMessage : Fault -> string)
  (generateContent : Request -> Promise Response) (read : File -> ReadOutcome)
  (file : File) (prompt : string) (err : Thrown) :
  throwsErrors sdk ->
  sdk construct ->
  pipelineCall construct typeErrorMessage generateContent read file prompt = Rejected err ->
  exists msg,
    err = ErrorObj msg /\ msg <> uploadFirstMessage /\ msg <> unexpectedErrorMessage.
Proof.
  intros Hsdk Hconstruct. destruct construct as [thrown|].
  - unfold pipelineCall. destruct (fileToBase64 (read file)) as [b|e] eqn:Henc; simpl.
    + intros [= <-]. exact (Hsdk thrown Hconstruct).
    + intros [= <-].
      apply (pipeline_rejected_message typeErrorMessage generateContent read file prompt).
      unfold pipeline. now rewrite Henc.
  - exact (pipeline_rejected_message typeErrorMessage generateContent read file prompt err).
Qed.

(** The setter calls after the awaited work keep the error among those
    that may be shown. *)
Lemma handleSubmitCall_settled_error (sdk : option Thrown -> Prop)
  (construct : option Thrown) (typeErrorMessage : Fault -> string)
  (generateContent : Request -> Promise Response) (read : File -> ReadOutcome)
  (s : SessionState) (us : list Update) :
  throwsErrors sdk ->
  sdk construct ->
  settled (handleSubmitCall construct typeErrorMessage generateContent read s) = Some us ->
  forall s', shownError (error s') -> shownError (error (commit us s')).
Proof.
  intros Hsdk Hconstruct. unfold handleSubmitCall.
  destruct (originalImageFile s) as [file|]; [|discriminate].
  destruct (negb (truthy (trim (prompt s)))); [discriminate|].
  simpl. intros [= <-] s' Hs'.
  destruct (pipelineCall construct typeErrorMessage generateContent read file (prompt s))
    as [result | err] eqn:E; simpl.
  - exact Hs'.
  - destruct (pipelineCall_rejected_message sdk _ _ _ _ _ _ _ Hsdk Hconstruct E)
      as (msg & -> & H1 & H2).
    simpl. split; congruence.
Qed.

Lemma shownError_step (sdk : option Thrown -> Prop) (c c' : Config) :
  throwsErrors sdk ->
  shownError (error (fst c)) /\
  Forall (fun us => forall s', shownError (error s') -> shownError (error (commit us s')))
         (snd c) ->
  stepCall sdk c c' ->
  shownError (error (fst c')) /\
  Forall (fun us => forall s', shownError (error s') -> shownError (error (commit us s')))
         (snd c').
Proof.
  intros Hsdk [Hs Hq] Hstep.
  destruct Hstep as [s q file objectURL | s q v Hguard
                    | s q construct tem gc read Hguard Hconstruct r
                    | s q1 us q2 | s q];
    simpl fst in *; simpl snd in *.
  - split; [split; discriminate | exact Hq].
  - split; [exact Hs | exact Hq].
  - destruct (submitDisabled_false s Hguard) as [_ [file Hfile]].
    pose proof (handleSubmitCall_settled_error sdk construct tem gc read s) as Hsettled.
    fold r in Hsettled. unfold awaiting.
    assert (Hstarted : started r = [SetError (Some enterPromptMessage)] /\ settled r = None
                       \/ started r = [SetIsLoading true; SetError None; SetEditedImage None]).
    { subst r. unfold handleSubmitCall. rewrite Hfile.
      destruct (negb (truthy (trim (prompt s)))); [left; now split | now right]. }
    split.
    + destruct Hstarted as [[-> _] | ->]; simpl; split; discriminate.
    + apply Forall_app. split; [exact Hq|].
      destruct (settled r) as [us|]; [|constructor].
      constructor; [|constructor]. exact (Hsettled us Hsdk Hconstruct eq_refl).
  - apply Forall_app in Hq as [Hq1 Hq2]. inversion Hq2 as [|? ? Hus Hq2']; subst.
    split; [exact (Hus s Hs) | apply Forall_app; now split].
  - rewrite handleDownload_no_update. split; [exact Hs | exact Hq].
Qed.

Lemma shownError_reachableCall (sdk : option Thrown -> Prop) (c : Config) :
  throwsErrors sdk ->
  reachableCall sdk c ->
  shownError (error (fst c)) /\
  Forall (fun us => forall s', shownError (error s') -> shownError (error (commit us s')))
         (snd c).
Proof.
  intros Hsdk. induction 1 as [|c c' _ IH Hstep].
  - split; [split; discriminate | constructor].
  - exact (shownError_step sdk c c' Hsdk IH Hstep).
Qed.

(** X15: two of the messages in [handleSubmit] are never shown, provided
    the constructor of the client throws nothing but [Error] objects with
    other messages: the button is disabled without a file, so the message
    asking for an upload is out of reach, and every other awaited failure
    is an [Error] of the encoder or of the [catch] block, so the fallback
    of the [catch] clause is too. *)
Theorem messages_never_shown (sdk : option Thrown -> Prop) (c : Config) :
  throwsErrors sdk ->
  reachableCall sdk c ->
  error (fst c) <> Some "Please upload an image first." /\
  error (fst c) <> Some "An unexpected error occurred.".
Proof.
  intros Hsdk H. exact (proj1 (shownError_reachableCall sdk c Hsdk H)).
Qed.

Lemma sampleKeyless_reachable : reachableCall sampleSdk (sampleKeyless, []).
Proof.
  apply (reachableCall_step sampleSdk
           (commit (started keylessSubmission) samplePrompted, awaiting keylessSubmission)).
  - apply (reachableCall_step sampleSdk (samplePrompted, [])).
    + apply (reachableCall_step sampleSdk (sampleSelected, [])).
      * apply (reachableCall_step sampleSdk (initialState, [])); [constructor|].
        exact (stepCall_select sampleSdk initialState [] sampleFile "blob:1").
      * exact (stepCall_prompt sampleSdk sampleSelected [] "add a glow" eq_refl).
    + exact (stepCall_submit sampleSdk samplePrompted [] (Some missingKey)
               sampleTypeErrorMessage goodService platformRead eq_refl
               (or_intror eq_refl)).
  - exact (stepCall_settle sampleSdk (commit (started keylessSubmission) samplePrompted) []
             [SetError (Some "An API Key must be set when running in a browser");
              SetIsLoading false] []).
Qed.

Lemma sampleSdk_throwsErrors : throwsErrors sampleSdk.
Proof.
  intros thrown [C | [= ->]]; [discriminate|].
  eexists. split; [reflexivity|]. split; discriminate.
Qed.

Lemma messages_never_shown_witness :
  throwsErrors sampleSdk /\
  reachableCall sampleSdk (sampleKeyless, []) /\
  error (fst (sampleKeyless, @nil (list Update))) <> Some "Please upload an image first." /\
  error (fst (sampleKeyless, @nil (list Update))) <> Some "An unexpected error occurred.".
Proof.
  split; [exact sampleSdk_throwsErrors|]. split; [exact sampleKeyless_reachable|].
  exact (messages_never_shown sampleSdk _ sampleSdk_throwsErrors sampleKeyless_reachable).
Defined.

(** Without that proviso the fallback can be shown: a constructor that
    throws a string makes the [catch] clause of [handleSubmit] use it. *)
Example fallback_shown : reachableCall anySdk (sampleFallback, []).
Proof.
  pose (r := handleSubmitCall (Some (NonError "no key")) sampleTypeErrorMessage
               goodService platformRead samplePrompted).
  apply (reachableCall_step anySdk (commit (started r) samplePrompted, awaiting r)).
  - apply (reachableCall_step anySdk (samplePrompted, [])).
    + apply (reachableCall_step anySdk (sampleSelected, [])).
      * apply (reachableCall_step anySdk (initialState, [])); [constructor|].
        exact (stepCall_select anySdk initialState [] sampleFile "blob:1").
      * exact (stepCall_prompt anySdk sampleSelected [] "add a glow" eq_refl).
    + exact (stepCall_submit anySdk samplePrompted [] (Some (NonError "no key"))
               sampleTypeErrorMessage goodService platformRead eq_refl I).
  - exact (stepCall_settle anySdk (commit (started r) samplePrompted) []
             [SetError (Some "An unexpected error occurred."); SetIsLoading false] []).
Qed.
